(** * Metric accumulators of [m3ae/gadgets/my_metrics.py]

    A shallow embedding of the torchmetrics accumulators of the repository:
    [Accuracy], [Scalar], [VQAScore], [ROUGE1Score], [ROUGE2Score],
    [BLEUScore], [VQARADScore], [ROCScore] and [F1Score].

    Every metric is a record of its registered states; a method is a function
    from the state to an outcome (a returned value or a raised exception)
    together with the state it leaves behind.  Scalar tensors are elements of
    a number domain [Num] with two instances: IEEE binary32 (the dtype of
    every state, [torch.tensor(0.0)]) and exact rationals extended with the
    IEEE special values. *)

From Stdlib Require Import ZArith List Bool Lia Permutation Sorted.
From Stdlib Require Import QArith Qcanon.
From Stdlib Require Import SpecFloat.
From Stdlib Require String Ascii.
Import ListNotations.

Set Implicit Arguments.

(** ** Exceptions and outcomes *)

Inductive exn : Type :=
| ValueError
| IndexError
| RuntimeError
| AssertionError.

Inductive outcome (A : Type) : Type :=
| Return (a : A)
| Raise (e : exn).

Arguments Return {A} a.
Arguments Raise {A} e.

Definition bind {A B : Type} (c : outcome A) (k : A -> outcome B) : outcome B :=
  match c with
  | Return a => k a
  | Raise e => Raise e
  end.

Notation "x <- c ;; k" := (bind c (fun x => k))
  (at level 61, c at next level, right associativity).

(** [try: ... except ValueError: ...] *)
Definition try_except_ValueError {A : Type} (body handler : outcome A) : outcome A :=
  match body with
  | Raise ValueError => handler
  | other => other
  end.

Fixpoint mapM {A B : Type} (f : A -> outcome B) (l : list A) : outcome (list B) :=
  match l with
  | [] => Return []
  | a :: l' => b <- f a ;; bs <- mapM f l' ;; Return (b :: bs)
  end.

(** ** The number domain of scalar tensors *)

Class Num : Type := {
  num : Type;
  num0 : num;                      (* 0.0 *)
  num1 : num;                      (* 1.0 *)
  nadd : num -> num -> num;        (* a + b *)
  nmul : num -> num -> num;        (* a * b *)
  ndiv : num -> num -> num;        (* a / b *)
  ngtb : num -> num -> bool;       (* a > b *)
  neqb : num -> num -> bool;       (* a == b *)
  nisnan : num -> bool;
  nfinite : num -> bool;
  of_nat : nat -> num              (* conversion of an integer count *)
}.

(** The laws of exact arithmetic.  Binary32 satisfies them only as long as no
    operation rounds. *)
Class ExactNum (N : Num) : Prop := {
  nadd_comm : forall x y : num, nadd x y = nadd y x;
  nadd_assoc : forall x y z : num, nadd x (nadd y z) = nadd (nadd x y) z;
  nadd_0_l : forall x : num, nadd num0 x = x;
  nmul_1_l : forall x : num, nmul num1 x = x;
  nmul_0_l : forall x : num, nfinite x = true -> nmul num0 x = num0;
  nfinite_0 : nfinite num0 = true;
  nfinite_1 : nfinite num1 = true;
  of_nat_0 : of_nat 0 = num0;
  of_nat_S : forall n : nat, of_nat (S n) = nadd (of_nat n) num1;
  ndiv_same : forall n : nat, ndiv (of_nat (S n)) (of_nat (S n)) = num1
}.

(** *** IEEE binary32 *)

Module F32.

Definition prec : Z := 24.
Definition emax : Z := 128.

Definition t : Type := spec_float.

Definition zero : t := S754_zero false.
Definition of_Z (z : Z) : t := binary_normalize prec emax z 0 false.
Definition one : t := of_Z 1.
Definition add : t -> t -> t := SFadd prec emax.
Definition mul : t -> t -> t := SFmul prec emax.
Definition div : t -> t -> t := SFdiv prec emax.
Definition gtb (a b : t) : bool := SFltb b a.
Definition eqb : t -> t -> bool := SFeqb.
Definition nan : t := S754_nan.

Definition isnan (a : t) : bool :=
  match a with
  | S754_nan => true
  | _ => false
  end.

Definition finite (a : t) : bool :=
  match a with
  | S754_zero _ | S754_finite _ _ _ => true
  | _ => false
  end.

(** The binary32 value nearest to the fraction [a / b] of two small
    integers, as a decimal literal denotes it. *)
Definition frac (a b : Z) : t := div (of_Z a) (of_Z b).

#[export] Instance f32_Num : Num | 0 := {|
  num := t;
  num0 := zero;
  num1 := one;
  nadd := add;
  nmul := mul;
  ndiv := div;
  ngtb := gtb;
  neqb := eqb;
  nisnan := isnan;
  nfinite := finite;
  of_nat := fun n => of_Z (Z.of_nat n)
|}.

End F32.

(** *** Exact rationals with the IEEE special values *)

Module Exact.

Inductive t : Type :=
| Fin (q : Qc)
| Inf (neg : bool)
| NaN.

Definition Qc_neg (q : Qc) : bool :=
  match q ?= 0 with
  | Lt => true
  | _ => false
  end.

Definition Qc_is0 (q : Qc) : bool :=
  match q ?= 0 with
  | Eq => true
  | _ => false
  end.

Definition zero : t := Fin 0.
Definition one : t := Fin 1.

Definition add (a b : t) : t :=
  match a, b with
  | NaN, _ | _, NaN => NaN
  | Inf s, Inf s' => if Bool.eqb s s' then Inf s else NaN
  | Inf s, Fin _ => Inf s
  | Fin _, Inf s => Inf s
  | Fin x, Fin y => Fin (x + y)
  end.

Definition mul (a b : t) : t :=
  match a, b with
  | NaN, _ | _, NaN => NaN
  | Inf s, Inf s' => Inf (xorb s s')
  | Inf s, Fin y => if Qc_is0 y then NaN else Inf (xorb s (Qc_neg y))
  | Fin x, Inf s => if Qc_is0 x then NaN else Inf (xorb (Qc_neg x) s)
  | Fin x, Fin y => Fin (x * y)
  end.

Definition div (a b : t) : t :=
  match a, b with
  | NaN, _ | _, NaN => NaN
  | Inf _, Inf _ => NaN
  | Inf s, Fin y => Inf (xorb s (Qc_neg y))
  | Fin x, Inf _ => Fin 0
  | Fin x, Fin y =>
      if Qc_is0 y then (if Qc_is0 x then NaN else Inf (Qc_neg x))
      else Fin (x / y)
  end.

Definition gtb (a b : t) : bool :=
  match a, b with
  | NaN, _ | _, NaN => false
  | Inf s, Inf s' => negb s && s'
  | Inf s, Fin _ => negb s
  | Fin _, Inf s => s
  | Fin x, Fin y => match x ?= y with Gt => true | _ => false end
  end.

Definition eqb (a b : t) : bool :=
  match a, b with
  | NaN, _ | _, NaN => false
  | Inf s, Inf s' => Bool.eqb s s'
  | Fin x, Fin y => match x ?= y with Eq => true | _ => false end
  | _, _ => false
  end.

Definition isnan (a : t) : bool :=
  match a with
  | NaN => true
  | _ => false
  end.

Definition finite (a : t) : bool :=
  match a with
  | Fin _ => true
  | _ => false
  end.

Definition of_Z (z : Z) : t := Fin (Q2Qc (inject_Z z)).



#[export] Instance exact_Num : Num | 10 := {|
  num := t;
  num0 := zero;
  num1 := one;
  nadd := add;
  nmul := mul;
  ndiv := div;
  ngtb := gtb;
  neqb := eqb;
  nisnan := isnan;
  nfinite := finite;
  of_nat := fun n => of_Z (Z.of_nat n)
|}.

End Exact.

Open Scope nat_scope.

(** ** Tensor operations *)

Section Tensor.
Context {N : Num}.

(** [x.sum()] of a tensor with elements [xs], added up from zero in index
    order. *)
Definition tsum (xs : list num) : num := fold_left nadd xs num0.

(** The comparison of torch's arg-max reduction: a candidate replaces the
    running maximum when it is greater, or when it is the first NaN; equal
    values keep the lower index. *)
Definition greater_or_nan (x best : num) : bool :=
  if nisnan best then false else nisnan x || ngtb x best.

Fixpoint argmax_from (row : list num) (i besti : nat) (best : num) : nat :=
  match row with
  | [] => besti
  | x :: row' =>
      if greater_or_nan x best
      then argmax_from row' (S i) i x
      else argmax_from row' (S i) besti best
  end.

(** [row.argmax()] along the class dimension; the reduction of an empty
    dimension raises. *)
Definition argmax (row : list num) : outcome nat :=
  match row with
  | [] => Raise IndexError
  | x :: row' => Return (argmax_from row' 1 0 x)
  end.

(** The class [argmax] selects, for statements about rows with at least
    one class. *)
Definition argmax_class (row : list num) : nat :=
  match row with
  | [] => 0
  | x :: row' => argmax_from row' 1 0 x
  end.

(** [(b).float()] of a boolean. *)
Definition of_bool (b : bool) : num := if b then num1 else num0.

(** [n] zeros with a one at position [k]. *)
Fixpoint one_hot (k n : nat) {struct n} : list num :=
  match n with
  | O => []
  | S n' =>
      match k with
      | O => num1 :: repeat num0 n'
      | S k' => num0 :: one_hot k' n'
      end
  end.

(** Elementwise product of two rows of the same length. *)
Fixpoint row_mul (xs ys : list num) : list num :=
  match xs, ys with
  | x :: xs', y :: ys' => nmul x y :: row_mul xs' ys'
  | _, _ => []
  end.

End Tensor.

(** [xs[mask]]: boolean-mask indexing; the mask must have the shape of the
    indexed tensor. *)
Fixpoint select {A : Type} (xs : list A) (mask : list bool) : list A :=
  match xs, mask with
  | x :: xs', b :: mask' => if b then x :: select xs' mask' else select xs' mask'
  | _, _ => []
  end.

Definition index_mask {A : Type} (xs : list A) (mask : list bool) : outcome (list A) :=
  if length xs =? length mask then Return (select xs mask) else Raise IndexError.

(** Number of positions at which a prediction equals its target:
    [torch.sum(preds == target)]. *)
Fixpoint count_matches (preds : list nat) (target : list Z) : nat :=
  match preds, target with
  | p :: preds', t :: target' =>
      (if (Z.of_nat p =? t)%Z then 1 else 0) + count_matches preds' target'
  | _, _ => 0
  end.

(** ** Accuracy *)

Module Accuracy.
Section WithNum.
Context {N : Num}.

Record state : Type := { correct : num; total : num }.

Definition init : state := {| correct := num0; total := num0 |}.

Definition reset (_ : state) : state := init.

Definition ignore_index : Z := (-100)%Z.

Definition valid (t : Z) : bool := negb (t =? ignore_index)%Z.

(** The masked predictions and targets of [update], before any state is
    touched. *)
Definition masked (logits : list (list num)) (target : list Z)
  : outcome (list nat * list Z) :=
  preds <- mapM argmax logits ;;
  preds' <- index_mask preds (map valid target) ;;
  target' <- index_mask target (map valid target) ;;
  Return (preds', target').

(** [update] returns [Some 1] on the early exit and [None] otherwise. *)
Definition update (logits : list (list num)) (target : list Z) (st : state)
  : outcome (option Z) * state :=
  match masked logits target with
  | Raise e => (Raise e, st)
  | Return (preds, target') =>
      if length target' =? 0 then (Return (Some 1%Z), st)
      else if length preds =? length target' then
        (Return None,
         {| correct := nadd (correct st) (of_nat (count_matches preds target'));
            total := nadd (total st) (of_nat (length target')) |})
      else (Raise AssertionError, st)
  end.

Definition compute (st : state) : num := ndiv (correct st) (total st).

(** A sample counts as correct when its target is not ignored and equals
    the arg-max class of its score vector. *)
Definition hit (sample : list num * Z) : bool :=
  valid (snd sample) && (Z.of_nat (argmax_class (fst sample)) =? snd sample)%Z.

Definition hits (logits : list (list num)) (target : list Z) : nat :=
  length (filter hit (combine logits target)).

Definition valid_samples (target : list Z) : nat :=
  length (filter valid target).

(** The state left by a sequence of [update] calls. *)
Definition updates (batches : list (list (list num) * list Z)) (st : state) : state :=
  fold_left (fun s b => snd (update (fst b) (snd b) s)) batches st.

(** What a batch adds to [correct] and to [total], when it adds anything. *)
Definition contribution (logits : list (list num)) (target : list Z)
  : option (nat * nat) :=
  match masked logits target with
  | Raise _ => None
  | Return (preds, target') =>
      if length target' =? 0 then None
      else if length preds =? length target'
           then Some (count_matches preds target', length target')
           else None
  end.

End WithNum.
End Accuracy.

(** ** Scalar *)

Module Scalar.
Section WithNum.
Context {N : Num}.

Record state : Type := { scalar : num; total : num }.

Definition init : state := {| scalar := num0; total := num0 |}.

Definition reset (_ : state) : state := init.

(** The argument of [update]: a tensor, or a raw number, which
    [torch.tensor(scalar).float()] turns into a tensor. *)
Inductive arg : Type :=
| Tensor (x : num)
| Number (x : num).

Definition to_tensor (a : arg) : num :=
  match a with
  | Tensor x => x
  | Number x => x
  end.

Definition update (a : arg) (st : state) : state :=
  {| scalar := nadd (scalar st) (to_tensor a);
     total := nadd (total st) num1 |}.

Definition compute (st : state) : num := ndiv (scalar st) (total st).

Definition updates (args : list arg) (st : state) : state :=
  fold_left (fun s a => update a s) args st.

(** [n] as the counter [total] reaches it: [n] increments of zero. *)
Definition counted (n : nat) : num :=
  Nat.iter n (fun t => nadd t num1) num0.


End WithNum.
End Scalar.

(** ** VQAScore *)

Module VQAScore.
Section WithNum.
Context {N : Num}.

Record state : Type := { score : num; total : num }.

Definition init : state := {| score := num0; total := num0 |}.

Definition reset (_ : state) : state := init.

(** [one_hots.scatter_(1, idx.view(-1, 1), 1)] on [zeros_like(target)]:
    row [i] of the result is the one-hot vector at [idx[i]]; rows beyond
    the index stay zero; an index with more rows than the target, or a
    class outside the row, raises. *)
Fixpoint scatter (idx : list nat) (target : list (list num))
  : outcome (list (list num)) :=
  match idx, target with
  | [], _ => Return (map (fun row => repeat num0 (length row)) target)
  | _ :: _, [] => Raise RuntimeError
  | k :: idx', row :: target' =>
      if k <? length row then
        rest <- scatter idx' target' ;;
        Return (one_hot k (length row) :: rest)
      else Raise RuntimeError
  end.

Fixpoint mul (xs ys : list (list num)) : list (list num) :=
  match xs, ys with
  | x :: xs', y :: ys' => row_mul x y :: mul xs' ys'
  | _, _ => []
  end.

(** [scores = one_hots * target] of [update], with the number of
    predictions. *)
Definition scores (logits target : list (list num))
  : outcome (list (list num) * nat) :=
  idx <- mapM argmax logits ;;
  one_hots <- scatter idx target ;;
  Return (mul one_hots target, length idx).

Definition update (logits target : list (list num)) (st : state)
  : outcome unit * state :=
  match scores logits target with
  | Raise e => (Raise e, st)
  | Return (sc, n) =>
      (Return tt,
       {| score := nadd (score st) (tsum (concat sc));
          total := nadd (total st) (of_nat n) |})
  end.

Definition compute (st : state) : num := ndiv (score st) (total st).

(** The row of [scores] of one sample: the one-hot vector at the arg-max
    class of its logits times its soft target. *)
Definition credit_row (sample : list num * list num) : list num :=
  row_mul (one_hot (argmax_class (fst sample)) (length (snd sample)))
          (snd sample).

(** The contribution of one sample: the dot product of the two vectors. *)
Definition credit (sample : list num * list num) : num :=
  tsum (credit_row sample).

(** One non-empty score vector per target row, the arg-max class being a
    class of the target. *)
Definition well_shaped (logits target : list (list num)) : Prop :=
  Forall2 (fun l t => l <> [] /\ argmax_class l < length t) logits target.

End WithNum.
End VQAScore.

(** ** Text-generation metrics

    The scorers of [rouge_score] and [nltk] are external: each is a function
    from a reference and a prediction to the score of the pair. *)

Module ROUGE1Score.
Section WithScorer.
Context {N : Num}.
Variable text : Type.
(** [scorer.score(target, prediction)['rouge1'].recall] *)
Variable rouge1_recall : text -> text -> num.

Record state : Type := { rouge1 : num; total : num }.

Definition init : state := {| rouge1 := num0; total := num0 |}.

Definition reset (_ : state) : state := init.

(** The loop over [zip(preds, targets)]; [target[0]] and [pred[0]] raise
    on an empty item, after the earlier pairs were accumulated. *)
Fixpoint update_loop (pairs : list (list text * list text)) (st : state)
  : outcome unit * state :=
  match pairs with
  | [] => (Return tt, st)
  | (pred, target) :: rest =>
      match target, pred with
      | t0 :: _, p0 :: _ =>
          update_loop rest
            {| rouge1 := nadd (rouge1 st) (rouge1_recall t0 p0);
               total := nadd (total st) num1 |}
      | _, _ => (Raise IndexError, st)
      end
  end.

Definition update (preds targets : list (list text)) (st : state)
  : outcome unit * state :=
  update_loop (combine preds targets) st.

Definition compute (st : state) : num :=
  if ngtb (total st) num0 then ndiv (rouge1 st) (total st) else num0.

End WithScorer.
End ROUGE1Score.

Module ROUGE2Score.
Section WithScorer.
Context {N : Num}.
Variable text : Type.
(** [scorer.score(target, prediction)['rouge2'].recall] *)
Variable rouge2_recall : text -> text -> num.

Record state : Type := { rouge2 : num; total : num }.

Definition init : state := {| rouge2 := num0; total := num0 |}.

Definition reset (_ : state) : state := init.

Fixpoint update_loop (pairs : list (list text * list text)) (st : state)
  : outcome unit * state :=
  match pairs with
  | [] => (Return tt, st)
  | (pred, target) :: rest =>
      match target, pred with
      | t0 :: _, p0 :: _ =>
          update_loop rest
            {| rouge2 := nadd (rouge2 st) (rouge2_recall t0 p0);
               total := nadd (total st) num1 |}
      | _, _ => (Raise IndexError, st)
      end
  end.

Definition update (preds targets : list (list text)) (st : state)
  : outcome unit * state :=
  update_loop (combine preds targets) st.

Definition compute (st : state) : num :=
  if ngtb (total st) num0 then ndiv (rouge2 st) (total st) else num0.

End WithScorer.
End ROUGE2Score.

Module BLEUScore.
Section WithScorer.
Context {N : Num}.
Variable text : Type.
(** [sentence_bleu([ref], pred, smoothing_function=method1)] *)
Variable sentence_bleu : text -> text -> num.

Record state : Type := { score : num; total : num }.

Definition init : state := {| score := num0; total := num0 |}.

Definition reset (_ : state) : state := init.

Definition update (preds targets : list text) (st : state) : state :=
  fold_left
    (fun s pr =>
       {| score := nadd (score s) (sentence_bleu (snd pr) (fst pr));
          total := nadd (total s) num1 |})
    (combine preds targets) st.

Definition compute (st : state) : num :=
  if ngtb (total st) num0 then ndiv (score st) (total st) else num0.

End WithScorer.
End BLEUScore.

(** ** VQARADScore *)

Module VQARADScore.
Section WithNum.
Context {N : Num}.

(** The states registered by [add_state] (those of [VQAScore] in [base])
    and the three plain attributes of the watermark. *)
Record state : Type := {
  base : VQAScore.state;
  close_score : num;
  close_total : num;
  open_score : num;
  open_total : num;
  best_score : num;
  best_close_score : num;
  best_open_score : num
}.

Definition score (st : state) : num := VQAScore.score (base st).
Definition total (st : state) : num := VQAScore.total (base st).

Definition init : state :=
  {| base := VQAScore.init;
     close_score := num0; close_total := num0;
     open_score := num0; open_total := num0;
     best_score := num0; best_close_score := num0; best_open_score := num0 |}.

(** [reset] restores the registered states only. *)
Definition reset (st : state) : state :=
  {| base := VQAScore.init;
     close_score := num0; close_total := num0;
     open_score := num0; open_total := num0;
     best_score := best_score st;
     best_close_score := best_close_score st;
     best_open_score := best_open_score st |}.

(** [(types == k).float() * self.score]: one entry per element of
    [types], each the mask times the cumulative score. *)
Definition type_scores (k : Z) (types : list Z) (sc : num) : list num :=
  map (fun ty => nmul (of_bool (ty =? k)%Z) sc) types.

Definition update (logits target : list (list num)) (types : list Z) (st : state)
  : outcome unit * state :=
  match VQAScore.update logits target (base st) with
  | (Raise e, b) =>
      (Raise e,
       {| base := b;
          close_score := close_score st; close_total := close_total st;
          open_score := open_score st; open_total := open_total st;
          best_score := best_score st;
          best_close_score := best_close_score st;
          best_open_score := best_open_score st |})
  | (Return _, b) =>
      let close_scores := type_scores 0 types (VQAScore.score b) in
      let open_scores := type_scores 1 types (VQAScore.score b) in
      (Return tt,
       {| base := b;
          close_score := nadd (close_score st) (tsum close_scores);
          close_total := nadd (close_total st) (of_nat (length close_scores));
          open_score := nadd (open_score st) (tsum open_scores);
          open_total := nadd (open_total st) (of_nat (length open_scores));
          best_score := best_score st;
          best_close_score := best_close_score st;
          best_open_score := best_open_score st |})
  end.

Definition compute (st : state) : num := VQAScore.compute (base st).

(** The averages snapshotted by [get_best_score]. *)
Definition close_average (st : state) : num :=
  if negb (neqb (close_total st) num0)
  then ndiv (close_score st) (close_total st) else num0.

Definition open_average (st : state) : num :=
  if negb (neqb (open_total st) num0)
  then ndiv (open_score st) (open_total st) else num0.

(** The test of [get_best_score]. *)
Definition improves (st : state) : bool :=
  ngtb (ndiv (score st) (total st)) (best_score st).

Definition get_best_score (st : state) : num * state :=
  let st' :=
    if improves st then
      {| base := base st;
         close_score := close_score st; close_total := close_total st;
         open_score := open_score st; open_total := open_total st;
         best_score := compute st;
         best_close_score := close_average st;
         best_open_score := open_average st |}
    else st in
  (best_score st', st').

Definition get_best_close_score (st : state) : num * state :=
  (best_close_score st, st).

Definition get_best_open_score (st : state) : num * state :=
  (best_open_score st, st).

(** *** Sequences of calls *)

Inductive op : Type :=
| Update (logits target : list (list num)) (types : list Z)
| Compute
| Reset
| GetBestScore
| GetBestCloseScore
| GetBestOpenScore.

(** What a call hands back to its caller. *)
Inductive reply : Type :=
| Done
| Raised (e : exn)
| Value (x : num).

Definition step (o : op) (st : state) : reply * state :=
  match o with
  | Update logits target types =>
      match update logits target types st with
      | (Return _, st') => (Done, st')
      | (Raise e, st') => (Raised e, st')
      end
  | Compute => (Value (compute st), st)
  | Reset => (Done, reset st)
  | GetBestScore => let (v, st') := get_best_score st in (Value v, st')
  | GetBestCloseScore => let (v, st') := get_best_close_score st in (Value v, st')
  | GetBestOpenScore => let (v, st') := get_best_open_score st in (Value v, st')
  end.

(** The state after a sequence of calls. *)
Definition run (ops : list op) (st : state) : state :=
  fold_left (fun s o => snd (step o s)) ops st.





End WithNum.
End VQARADScore.

(** ** Buffered metrics *)

(** [np.concatenate(arrays, axis=0)] raises [ValueError] on an empty list. *)
Definition np_concatenate {A : Type} (arrays : list (list A)) : outcome (list A) :=
  match arrays with
  | [] => Raise ValueError
  | _ :: _ => Return (concat arrays)
  end.

(** [buffer[0]] *)
Definition first {A : Type} (buffer : list A) : outcome A :=
  match buffer with
  | [] => Raise IndexError
  | a :: _ => Return a
  end.

Module ROCScore.
Section WithStatistic.
Context {N : Num}.
(** [torch.sigmoid] *)
Variable sigmoid : num -> num.
(** [sklearn.metrics.roc_auc_score(y_true, y_score)] *)
Variable roc_auc_score : list num -> list num -> outcome num.

Record state : Type := {
  y_trues : list (list num);
  y_scores : list (list num)
}.

Definition init : state := {| y_trues := []; y_scores := [] |}.

Definition reset (_ : state) : state := init.

Definition update (logits target : list num) (st : state) : state :=
  {| y_trues := y_trues st ++ [target];
     y_scores := y_scores st ++ [map sigmoid logits] |}.

(** The result tensor is placed on the device of [y_trues[0]] in the
    body and in the handler alike. *)
Definition compute (st : state) : outcome num :=
  try_except_ValueError
    (ys <- np_concatenate (y_trues st) ;;
     ss <- np_concatenate (y_scores st) ;;
     score <- roc_auc_score ys ss ;;
     _ <- first (y_trues st) ;;
     Return score)
    (_ <- first (y_trues st) ;;
     Return num0).

Definition updates (batches : list (list num * list num)) (st : state) : state :=
  fold_left (fun s b => update (fst b) (snd b) s) batches st.

(** The (label, score) samples a list of (logits, target) batches pools. *)
Definition pool (batches : list (list num * list num)) : list (num * num) :=
  flat_map (fun b => combine (snd b) (map sigmoid (fst b))) batches.

End WithStatistic.
End ROCScore.

Module F1Score.
Section WithStatistic.
Context {N : Num}.
(** [torch.sigmoid] *)
Variable sigmoid : num -> num.
(** [sklearn.metrics.f1_score(y_true, y_pred)] *)
Variable f1_score : list num -> list num -> outcome num.

Record state : Type := {
  y_trues : list (list num);
  y_preds : list (list num)
}.

Definition init : state := {| y_trues := []; y_preds := [] |}.

Definition reset (_ : state) : state := init.

Definition half : num := ndiv num1 (of_nat 2).

(** [(torch.sigmoid(logits) > 0.5).float()] *)
Definition threshold (logits : list num) : list num :=
  map (fun l => of_bool (ngtb (sigmoid l) half)) logits.

Definition update (logits target : list num) (st : state) : state :=
  {| y_trues := y_trues st ++ [target];
     y_preds := y_preds st ++ [threshold logits] |}.

Definition compute (st : state) : outcome num :=
  try_except_ValueError
    (ys <- np_concatenate (y_trues st) ;;
     ps <- np_concatenate (y_preds st) ;;
     score <- f1_score ys ps ;;
     _ <- first (y_trues st) ;;
     Return score)
    (_ <- first (y_trues st) ;;
     Return num0).

Definition updates (batches : list (list num * list num)) (st : state) : state :=
  fold_left (fun s b => update (fst b) (snd b) s) batches st.

(** The (label, prediction) samples a list of (logits, target) batches
    pools. *)
Definition pool (batches : list (list num * list num)) : list (num * num) :=
  flat_map (fun b => combine (snd b) (threshold (fst b))) batches.

End WithStatistic.
End F1Score.




(** ** The statistics of scikit-learn on binary labels

    Reference behaviour of the two external statistics on label arrays over
    0.0 and 1.0, the inputs the metrics above are fed with. *)

Module Sklm.
Section WithNum.
Context {N : Num}.

Definition positive (y : num) : bool := neqb y num1.

Definition count_if {A : Type} (p : A -> bool) (l : list A) : nat :=
  length (filter p l).

(** [f1_score]: 2 TP / (2 TP + FP + FN) for the positive label 1, and 0
    when there is neither a positive label nor a positive prediction;
    arrays of different lengths are rejected. *)
Definition f1_score (y_true y_pred : list num) : outcome num :=
  if length y_true =? length y_pred then
    let samples := combine y_true y_pred in
    let tp := count_if (fun s => positive (fst s) && positive (snd s)) samples in
    let fp := count_if (fun s => negb (positive (fst s)) && positive (snd s)) samples in
    let fn := count_if (fun s => positive (fst s) && negb (positive (snd s))) samples in
    if 2 * tp + fp + fn =? 0 then Return num0
    else Return (ndiv (of_nat (2 * tp)) (of_nat (2 * tp + fp + fn)))
  else Raise ValueError.

(** Twice the number of (positive, negative) pairs ranked correctly, a
    tied pair counting half. *)
Definition pair_credit (p n : num * num) : nat :=
  if positive (fst p) && negb (positive (fst n)) then
    if ngtb (snd p) (snd n) then 2
    else if neqb (snd p) (snd n) then 1 else 0
  else 0.

Definition credit (samples : list (num * num)) : nat :=
  list_sum (map (fun p => list_sum (map (pair_credit p) samples)) samples).

(** [roc_auc_score]: the fraction of (positive, negative) pairs ranked
    correctly; a label array with a single class is rejected with
    [ValueError], as are arrays of different lengths. *)
Definition roc_auc_score (y_true y_score : list num) : outcome num :=
  if length y_true =? length y_score then
    let samples := combine y_true y_score in
    let npos := count_if (fun s => positive (fst s)) samples in
    let nneg := count_if (fun s => negb (positive (fst s))) samples in
    if (npos =? 0) || (nneg =? 0) then Raise ValueError
    else Return (ndiv (of_nat (credit samples)) (of_nat (2 * npos * nneg)))
  else Raise ValueError.

End WithNum.
End Sklm.

(** ** Concrete scenarios in binary32 *)

Module Scenario.

(** Accuracy: logits [[0.1, 0.9], [0.8, 0.2]] with target [1, -100]. *)
Definition acc_logits : list (list F32.t) :=
  [[F32.frac 1 10; F32.frac 9 10]; [F32.frac 8 10; F32.frac 2 10]].
Definition acc_target : list Z := [1; -100]%Z.

(** Accuracy: a batch with ignored targets only. *)
Definition ignored_logits : list (list F32.t) :=
  [[F32.frac 1 10; F32.frac 9 10]; [F32.frac 8 10; F32.frac 2 10]].
Definition ignored_target : list Z := [-100; -100]%Z.


(** VQA-RAD: two batches of one open question (type 1) each; the first is
    answered with full credit, the second with none. *)
Definition f0 : F32.t := F32.zero.
Definition f1 : F32.t := F32.one.
Definition rad_logits1 : list (list F32.t) := [[f0; f1]].
Definition rad_logits2 : list (list F32.t) := [[f1; f0]].
Definition rad_target : list (list F32.t) := [[f0; f1]].
Definition rad_types : list Z := [1]%Z.

Definition rad_state1 : VQARADScore.state :=
  snd (VQARADScore.update (N := F32.f32_Num)
         rad_logits1 rad_target rad_types VQARADScore.init).
Definition rad_state2 : VQARADScore.state :=
  snd (VQARADScore.update (N := F32.f32_Num)
         rad_logits2 rad_target rad_types rad_state1).

(** VQA soft score: the arg-max class is 1 in both samples; the first
    target is one-hot at class 1, the second has no mass there. *)
Definition vqa_logits : list (list F32.t) := [[F32.frac 2 10; F32.frac 8 10]].
Definition vqa_target_hit : list (list F32.t) := [[f0; f1]].
Definition vqa_target_miss : list (list F32.t) := [[F32.frac 1 2; f0]].


(** F1: the buffers after one update with the target [1.0] and a logit
    whose sigmoid exceeds 0.5. *)
Definition f1_state : F1Score.state (N := F32.f32_Num) :=
  @F1Score.Build_state F32.f32_Num [[f1]] [[f1]].




(** Accuracy in exact arithmetic: two batches. *)
Definition exact_acc_batches
  : list (list (list (@num Exact.exact_Num)) * list Z) :=
  [([[Exact.of_Z 0; Exact.of_Z 1]; [Exact.of_Z 1; Exact.of_Z 0]], [1; 1]%Z);
   ([[Exact.of_Z 1; Exact.of_Z 0]], [0]%Z)].


(** The same one-hot sample in exact arithmetic. *)
Definition exact_logits : list (list (@num Exact.exact_Num)) :=
  [[Exact.of_Z 0; Exact.of_Z 1]].
Definition exact_target : list (list (@num Exact.exact_Num)) :=
  [[Exact.zero; Exact.one]].

End Scenario.

(** ** Quantities of the further properties *)

(** The numbers of correct and of valid samples that a sequence of
    [Accuracy.update] calls accumulates. *)
Definition accuracy_counts {N : Num}
    (batches : list (list (list num) * list Z)) : nat * nat :=
  fold_left
    (fun acc b =>
       match Accuracy.contribution (fst b) (snd b) with
       | Some (c, n) => (fst acc + c, snd acc + n)
       | None => acc
       end)
    batches (0, 0).

(** The score of one (prediction, reference) item pair of the ROUGE loops,
    both items holding at least their first text. *)
Definition rouge_pair_score {N : Num} {text : Type} (scorer : text -> text -> num)
    (pair : list text * list text) : num :=
  match snd pair, fst pair with
  | t0 :: _, p0 :: _ => scorer t0 p0
  | _, _ => num0
  end.

(** An item pair whose two first texts exist. *)
Definition rouge_pair_ok {text : Type} (pair : list text * list text) : Prop :=
  fst pair <> [] /\ snd pair <> [].

(** ** Training utilities of [m3ae/modules/m3ae_utils.py] *)

Module M3aeUtils.
Import String.
#[local] Open Scope list_scope.
#[local] Open Scope string_scope.

(** [sub in s] *)
Fixpoint contains (sub s : string) : bool :=
  prefix sub s
  || match s with
     | EmptyString => false
     | String _ s' => contains sub s'
     end.

(** [any(x in n for x in names)] *)
Definition any_in (names : list string) (n : string) : bool :=
  existsb (fun x => contains x n) names.

(** What a utility raises. *)
Inductive failure : Type :=
| Exception (e : exn)
| AttributeError (name : string)
| ZeroDivisionError.

(** [for x in xs: body(x)] over a state, stopping at the first exception. *)
Fixpoint for_each {A S : Type} (body : A -> S -> option failure * S)
    (xs : list A) (s : S) : option failure * S :=
  match xs with
  | [] => (None, s)
  | x :: xs' =>
      match body x s with
      | (None, s') => for_each body xs' s'
      | (Some f, s') => (Some f, s')
      end
  end.

Section WithNum.
Context {N : Num}.
(** The parameter tensors of the model. *)
Variable P : Type.

(** The metric objects the utilities attach to the module. *)
Inductive metric : Type :=
| AccuracyMetric (st : Accuracy.state)
| ScalarMetric (st : Scalar.state)
| VQARADScoreMetric (st : VQARADScore.state)
| ROUGE1ScoreMetric (st : ROUGE1Score.state)
| ROUGE2ScoreMetric (st : ROUGE2Score.state)
| BLEUScoreMetric (st : BLEUScore.state).

(** [m.compute()] *)
Definition compute (m : metric) : num :=
  match m with
  | AccuracyMetric st => Accuracy.compute st
  | ScalarMetric st => Scalar.compute st
  | VQARADScoreMetric st => VQARADScore.compute st
  | ROUGE1ScoreMetric st => ROUGE1Score.compute st
  | ROUGE2ScoreMetric st => ROUGE2Score.compute st
  | BLEUScoreMetric st => BLEUScore.compute st
  end.

(** [m.reset()] *)
Definition reset (m : metric) : metric :=
  match m with
  | AccuracyMetric st => AccuracyMetric (Accuracy.reset st)
  | ScalarMetric st => ScalarMetric (Scalar.reset st)
  | VQARADScoreMetric st => VQARADScoreMetric (VQARADScore.reset st)
  | ROUGE1ScoreMetric st => ROUGE1ScoreMetric (ROUGE1Score.reset st)
  | ROUGE2ScoreMetric st => ROUGE2ScoreMetric (ROUGE2Score.reset st)
  | BLEUScoreMetric st => BLEUScoreMetric (BLEUScore.reset st)
  end.

(** [m.get_best_score()], [m.get_best_close_score()] and
    [m.get_best_open_score()]: methods of [VQARADScore] only; the result is
    the returned value with the object as the call leaves it. *)
Definition get_best_score (m : metric) : option (num * metric) :=
  match m with
  | VQARADScoreMetric st =>
      let (v, st') := VQARADScore.get_best_score st in
      Some (v, VQARADScoreMetric st')
  | _ => None
  end.

Definition get_best_close_score (m : metric) : option (num * metric) :=
  match m with
  | VQARADScoreMetric st =>
      let (v, st') := VQARADScore.get_best_close_score st in
      Some (v, VQARADScoreMetric st')
  | _ => None
  end.

Definition get_best_open_score (m : metric) : option (num * metric) :=
  match m with
  | VQARADScoreMetric st =>
      let (v, st') := VQARADScore.get_best_open_score st in
      Some (v, VQARADScoreMetric st')
  | _ => None
  end.

(** [config["decay_power"]]: the string ["cosine"] or a power. *)
Inductive decay : Type :=
| Cosine
| Power (p : num).

(** [config["warmup_steps"]]: a number of steps or, as a float, a fraction
    of the training steps. *)
Inductive warmup : Type :=
| Steps (n : Z)
| Fraction (r : num).

(** The entries of [pl_module.hparams.config] the utilities read;
    [loss_names] holds the items of the dictionary in its order. *)
Record config : Type := {
  loss_names : list (string * Z);
  learning_rate : num;
  weight_decay : num;
  lr_multiplier_head : num;
  lr_multiplier_multi_modal : num;
  end_lr : num;
  decay_power : decay;
  optim_type : string;
  warmup_steps : warmup
}.

(** What the utilities read of [pl_module.trainer];
    [train_dataloader_len] is [len(trainer.datamodule.train_dataloader())]. *)
Record trainer : Type := {
  max_steps : option Z;
  train_dataloader_len : Z;
  max_epochs : Z;
  accumulate_grad_batches : Z
}.

(** The module the utilities work on: its configuration and trainer, its
    mode, the attributes set by [setattr], the calls of [log] in call order,
    its named parameters and the gradient of
    [token_type_embeddings.weight]. *)
Record pl_module : Type := {
  hparams : config;
  module_trainer : trainer;
  training : bool;
  attributes : list (string * metric);
  logged : list (string * num);
  current_tasks : list string;
  named_parameters : list (string * P);
  token_type_embeddings_grad : option (list num)
}.

Definition with_attributes (attrs : list (string * metric)) (pl : pl_module)
  : pl_module :=
  {| hparams := hparams pl; module_trainer := module_trainer pl;
     training := training pl; attributes := attrs; logged := logged pl;
     current_tasks := current_tasks pl; named_parameters := named_parameters pl;
     token_type_embeddings_grad := token_type_embeddings_grad pl |}.

(** [getattr(pl_module, name)] *)
Fixpoint lookup (name : string) (attrs : list (string * metric)) : option metric :=
  match attrs with
  | [] => None
  | (n, m) :: attrs' => if n =? name then Some m else lookup name attrs'
  end.

Definition getattr (pl : pl_module) (name : string) : option metric :=
  lookup name (attributes pl).

(** The attributes with [name] bound to [m]: an existing binding is
    replaced, a new one is added at the end. *)
Fixpoint bind_attr (name : string) (m : metric) (attrs : list (string * metric))
  : list (string * metric) :=
  match attrs with
  | [] => [(name, m)]
  | (n, x) :: attrs' =>
      if n =? name then (name, m) :: attrs' else (n, x) :: bind_attr name m attrs'
  end.

(** [setattr(pl_module, name, m)] *)
Definition setattr (name : string) (m : metric) (pl : pl_module) : pl_module :=
  with_attributes (bind_attr name m (attributes pl)) pl.

(** [pl_module.log(key, value)] *)
Definition log (key : string) (value : num) (pl : pl_module) : pl_module :=
  {| hparams := hparams pl; module_trainer := module_trainer pl;
     training := training pl; attributes := attributes pl;
     logged := (logged pl ++ [(key, value)])%list;
     current_tasks := current_tasks pl; named_parameters := named_parameters pl;
     token_type_embeddings_grad := token_type_embeddings_grad pl |}.

(** *** set_metrics *)

(** The metrics one active loss name gets in one pass over the splits. *)
Definition set_vqa (split k : string) (pl : pl_module) : pl_module :=
  if split =? "train" then
    setattr ("train_" ++ k ++ "_loss") (ScalarMetric Scalar.init)
      (setattr ("train_" ++ k ++ "_bleu_score") (BLEUScoreMetric BLEUScore.init)
         (setattr ("train_" ++ k ++ "_rouge2") (ROUGE2ScoreMetric ROUGE2Score.init)
            (setattr ("train_" ++ k ++ "_rouge1") (ROUGE1ScoreMetric ROUGE1Score.init)
               (setattr ("train_" ++ k ++ "_score")
                  (VQARADScoreMetric VQARADScore.init) pl))))
  else
    setattr ("test_" ++ k ++ "_loss") (ScalarMetric Scalar.init)
      (setattr ("test_" ++ k ++ "_bleu_score") (BLEUScoreMetric BLEUScore.init)
         (setattr ("test_" ++ k ++ "_rouge2") (ROUGE2ScoreMetric ROUGE2Score.init)
            (setattr ("test_" ++ k ++ "_rouge1") (ROUGE1ScoreMetric ROUGE1Score.init)
               (setattr ("test_" ++ k ++ "_score")
                  (VQARADScoreMetric VQARADScore.init)
    (setattr ("val_" ++ k ++ "_loss") (ScalarMetric Scalar.init)
      (setattr ("val_" ++ k ++ "_bleu_score") (BLEUScoreMetric BLEUScore.init)
         (setattr ("val_" ++ k ++ "_rouge2") (ROUGE2ScoreMetric ROUGE2Score.init)
            (setattr ("val_" ++ k ++ "_rouge1") (ROUGE1ScoreMetric ROUGE1Score.init)
               (setattr ("val_" ++ k ++ "_score")
                  (VQARADScoreMetric VQARADScore.init) pl))))))))).

Definition set_cls (split k : string) (pl : pl_module) : pl_module :=
  if split =? "train" then
    setattr ("train_" ++ k ++ "_loss") (ScalarMetric Scalar.init)
      (setattr ("train_" ++ k ++ "_accuracy") (AccuracyMetric Accuracy.init) pl)
  else
    setattr ("test_" ++ k ++ "_loss") (ScalarMetric Scalar.init)
      (setattr ("test_" ++ k ++ "_accuracy") (AccuracyMetric Accuracy.init)
         (setattr ("val_" ++ k ++ "_loss") (ScalarMetric Scalar.init)
            (setattr ("val_" ++ k ++ "_accuracy") (AccuracyMetric Accuracy.init) pl))).

(** The body of the inner loop. *)
Definition set_metrics_item (split : string) (item : string * Z) (pl : pl_module)
  : option failure * pl_module :=
  let (k, v) := item in
  if (v <=? 0)%Z then (None, pl)
  else if k =? "vqa" then (None, set_vqa split k pl)
  else if k =? "cls" then (None, set_cls split k pl)
  else (Some (Exception ValueError), pl).

Definition splits : list string := ["train"; "val"; "test"].

Definition set_metrics (pl : pl_module) : option failure * pl_module :=
  for_each
    (fun split pl' =>
       for_each (set_metrics_item split) (loss_names (hparams pl')) pl')
    splits pl.

(** *** epoch_wrapup *)

(** [getattr(pl_module, name)] followed by a method call [call] that hands
    back a value and leaves the object changed; the object stays bound to
    [name]. *)
Definition call_method (name method : string)
    (call : metric -> option (num * metric)) (pl : pl_module)
  : (num + failure) * pl_module :=
  match getattr pl name with
  | None => (inr (AttributeError name), pl)
  | Some m =>
      match call m with
      | None => (inr (AttributeError method), pl)
      | Some (v, m') => (inl v, setattr name m' pl)
      end
  end.

(** [pl_module.log(key, getattr(pl_module, name).method())] *)
Definition log_method (key name method : string)
    (call : metric -> option (num * metric)) (pl : pl_module)
  : option failure * pl_module :=
  match call_method name method call pl with
  | (inl v, pl') => (None, log key v pl')
  | (inr f, pl') => (Some f, pl')
  end.

(** [getattr(pl_module, name).reset()] *)
Definition reset_attr (name : string) (pl : pl_module) : option failure * pl_module :=
  match getattr pl name with
  | None => (Some (AttributeError name), pl)
  | Some m => (None, setattr name (reset m) pl)
  end.

(** One step after another, stopping at the first exception. *)
Definition and_then (step1 step2 : pl_module -> option failure * pl_module)
    (pl : pl_module) : option failure * pl_module :=
  match step1 pl with
  | (None, pl') => step2 pl'
  | (Some f, pl') => (Some f, pl')
  end.

Definition compute_method (m : metric) : option (num * metric) :=
  Some (compute m, m).

(** The body of the loop of [epoch_wrapup]; the [print] of the module is
    left out. *)
Definition epoch_wrapup_item (phase : string) (item : string * Z) (pl : pl_module)
  : option failure * pl_module :=
  let (loss_name, v) := item in
  if (v <=? 0)%Z then (None, pl)
  else if loss_name =? "vqa" then
    let score := phase ++ "_" ++ loss_name ++ "_score" in
    let loss := phase ++ "_" ++ loss_name ++ "_loss" in
    and_then
      (log_method (loss_name ++ "/" ++ phase ++ "/score_epoch") score "compute"
         compute_method)
      (and_then
         (log_method (loss_name ++ "/" ++ phase ++ "/score_best_epoch") score
            "get_best_score" get_best_score)
         (and_then
            (log_method (loss_name ++ "/" ++ phase ++ "/close_score_best_epoch") score
               "get_best_close_score" get_best_close_score)
            (and_then
               (log_method (loss_name ++ "/" ++ phase ++ "/open_score_best_epoch") score
                  "get_best_open_score" get_best_open_score)
               (and_then (reset_attr score)
                  (and_then
                     (log_method (loss_name ++ "/" ++ phase ++ "/loss_epoch") loss
                        "compute" compute_method)
                     (and_then (reset_attr loss)
                        (for_each
                           (fun metric =>
                              and_then
                                (log_method (phase ++ "/" ++ metric)
                                   (phase ++ "_" ++ loss_name ++ "_" ++ metric)
                                   "compute" compute_method)
                                (reset_attr (phase ++ "_" ++ loss_name ++ "_" ++ metric)))
                           ["rouge1"; "rouge2"; "bleu_score"])))))))
      pl
  else (None, pl).

Definition phase_of (pl : pl_module) (test : bool) : string :=
  if test then "test" else if training pl then "train" else "val".

Definition epoch_wrapup (pl : pl_module) (test : bool) : option failure * pl_module :=
  for_each (epoch_wrapup_item (phase_of pl test)) (loss_names (hparams pl)) pl.

(** *** check_non_acc_grad, set_task *)

Definition check_non_acc_grad (pl : pl_module) : bool :=
  match token_type_embeddings_grad pl with
  | None => true
  | Some grad => neqb (tsum grad) num0
  end.

Definition active (item : string * Z) : bool := (0 <? snd item)%Z.

Definition set_task (pl : pl_module) : pl_module :=
  {| hparams := hparams pl; module_trainer := module_trainer pl;
     training := training pl; attributes := attributes pl; logged := logged pl;
     current_tasks := map fst (filter active (loss_names (hparams pl)));
     named_parameters := named_parameters pl;
     token_type_embeddings_grad := token_type_embeddings_grad pl |}.

(** *** set_schedule *)

Definition no_decay : list string :=
  ["bias"; "LayerNorm.bias"; "LayerNorm.weight"; "norm.bias"; "norm.weight";
   "norm1.bias"; "norm1.weight"; "norm2.bias"; "norm2.weight"].

Definition head_names : list string :=
  ["mlm_head"; "mim_head"; "itm_head"; "vqa_head"; "cls_head"; "irtr_head"].

Definition multi_modal_names : list string := ["multi_modal"].

Record param_group : Type := {
  params : list P;
  group_weight_decay : num;
  lr : num
}.

(** [[p for n, p in named_parameters if keep(n)]] *)
Definition select_params (keep : string -> bool) (named : list (string * P)) : list P :=
  map snd (filter (fun np => keep (fst np)) named).

Definition optimizer_grouped_parameters (pl : pl_module) : list param_group :=
  let named := named_parameters pl in
  let c := hparams pl in
  [ {| params :=
         select_params
           (fun n => negb (any_in no_decay n) && negb (any_in head_names n)
                     && negb (any_in multi_modal_names n)) named;
       group_weight_decay := weight_decay c;
       lr := learning_rate c |};
    {| params :=
         select_params
           (fun n => any_in no_decay n && negb (any_in head_names n)
                     && negb (any_in multi_modal_names n)) named;
       group_weight_decay := num0;
       lr := learning_rate c |};
    {| params :=
         select_params
           (fun n => negb (any_in no_decay n) && any_in head_names n
                     && negb (any_in multi_modal_names n)) named;
       group_weight_decay := weight_decay c;
       lr := nmul (learning_rate c) (lr_multiplier_head c) |};
    {| params :=
         select_params
           (fun n => any_in no_decay n && any_in head_names n
                     && negb (any_in multi_modal_names n)) named;
       group_weight_decay := num0;
       lr := nmul (learning_rate c) (lr_multiplier_head c) |};
    {| params :=
         select_params
           (fun n => negb (any_in no_decay n) && negb (any_in head_names n)
                     && any_in multi_modal_names n) named;
       group_weight_decay := weight_decay c;
       lr := nmul (learning_rate c) (lr_multiplier_multi_modal c) |};
    {| params :=
         select_params
           (fun n => any_in no_decay n && negb (any_in head_names n)
                     && any_in multi_modal_names n) named;
       group_weight_decay := num0;
       lr := nmul (learning_rate c) (lr_multiplier_multi_modal c) |} ].



(** [int(max_steps * warmup_steps)] for a float [warmup_steps]. *)
Variable int_of_product : Z -> num -> Z.



(** *** Quantities of the statements *)

(** An active loss name that [set_metrics] does not know. *)
Definition unknown (item : string * Z) : bool :=
  active item && negb (fst item =? "vqa") && negb (fst item =? "cls").

(** An item that [epoch_wrapup] acts on. *)
Definition wrapped (item : string * Z) : bool :=
  active item && (fst item =? "vqa").

(** The metrics [epoch_wrapup] needs in a phase. *)
Definition has_metrics (phase : string) (pl : pl_module) : Prop :=
  (exists s, getattr pl (phase ++ "_vqa_score") = Some (VQARADScoreMetric s)) /\
  (exists m, getattr pl (phase ++ "_vqa_loss") = Some m) /\
  (exists m, getattr pl (phase ++ "_vqa_rouge1") = Some m) /\
  (exists m, getattr pl (phase ++ "_vqa_rouge2") = Some m) /\
  (exists m, getattr pl (phase ++ "_vqa_bleu_score") = Some m).

Definition ready (pl : pl_module) : Prop :=
  has_metrics "train" pl /\ has_metrics "val" pl /\ has_metrics "test" pl.



(** A name that belongs both to a head and to the multi-modal encoder. *)
Definition head_and_multi_modal (n : string) : bool :=
  any_in head_names n && any_in multi_modal_names n.

End WithNum.

(** *** A module in binary32 *)

Definition scenario_config : config (N := F32.f32_Num) :=
  @Build_config F32.f32_Num
    [("mlm", 0%Z); ("vqa", 1%Z); ("cls", 1%Z)]
    (F32.frac 1 100000) (F32.frac 1 100) (F32.of_Z 50) (F32.of_Z 5) F32.zero
    (@Power F32.f32_Num F32.one) "adamw" (@Steps F32.f32_Num 100).

Definition scenario_trainer : trainer :=
  {| max_steps := None;
     train_dataloader_len := 250;
     max_epochs := 10;
     accumulate_grad_batches := 4 |}.

Definition scenario_module : pl_module (N := F32.f32_Num) nat :=
  @Build_pl_module F32.f32_Num nat scenario_config scenario_trainer false [] [] []
    [("text_encoder.layer.weight", 0); ("text_encoder.layer.bias", 1);
     ("vqa_head.weight", 2); ("multi_modal_layers.norm1.weight", 3);
     ("multi_modal_vqa_head.weight", 4)]
    None.

(** The same module with the metrics of [set_metrics] attached. *)
Definition scenario_ready : pl_module (N := F32.f32_Num) nat :=
  snd (set_metrics scenario_module).

(** A module with the loss name ["cls"] only and an optimizer that
    [set_schedule] does not know. *)
Definition scenario_cls : pl_module (N := F32.f32_Num) nat :=
  @Build_pl_module F32.f32_Num nat
    (@Build_config F32.f32_Num
       [("vqa", 0%Z); ("cls", 1%Z)]
       (F32.frac 1 100000) (F32.frac 1 100) (F32.of_Z 50) (F32.of_Z 5) F32.zero
       (@Cosine F32.f32_Num) "rmsprop" (@Steps F32.f32_Num 100))
    scenario_trainer true [] [] [] [("cls_head.bias", 0)] None.

(** The first module with a gradient of the token type embeddings whose two
    entries are opposite. *)
Definition scenario_cancelling : pl_module (N := F32.f32_Num) nat :=
  @Build_pl_module F32.f32_Num nat scenario_config scenario_trainer false [] [] []
    (named_parameters scenario_module)
    (Some [F32.frac 1 100; SFopp (F32.frac 1 100)]).

End M3aeUtils.

(** * Properties *)

(** ** Exact arithmetic satisfies its laws *)

Lemma Qc_is0_true (q : Qc) : Exact.Qc_is0 q = true -> q = 0%Qc.
Proof.
  unfold Exact.Qc_is0. destruct (q ?= 0)%Qc eqn:E; try discriminate.
  intros _. now apply Qceq_alt.
Qed.

Lemma Qc_is0_false (q : Qc) : Exact.Qc_is0 q = false -> q <> 0%Qc.
Proof.
  unfold Exact.Qc_is0. intros H ->. now rewrite (proj1 (Qceq_alt 0 0) eq_refl) in H.
Qed.

Lemma of_Z_succ (n : nat) :
  Exact.of_Z (Z.of_nat (S n)) = Exact.add (Exact.of_Z (Z.of_nat n)) Exact.one.
Proof.
  unfold Exact.of_Z, Exact.one. cbn [Exact.add]. f_equal.
  apply Qc_is_canon. cbn [this Qcplus Q2Qc].
  rewrite !Qred_correct, Nat2Z.inj_succ. unfold Z.succ.
  now rewrite inject_Z_plus.
Qed.

Lemma of_Z_pos_nonzero (n : nat) : Exact.Qc_is0 (Q2Qc (inject_Z (Z.of_nat (S n)))) = false.
Proof.
  unfold Exact.Qc_is0. rewrite Nat2Z.inj_succ.
  destruct (Q2Qc (inject_Z (Z.succ (Z.of_nat n))) ?= 0)%Qc eqn:E; try reflexivity.
  apply Qceq_alt in E. apply (f_equal this) in E. cbn [this Q2Qc] in E.
  assert (H : inject_Z (Z.succ (Z.of_nat n)) == 0).
  { rewrite <- (Qred_correct (inject_Z _)). rewrite E. reflexivity. }
  unfold Qeq, inject_Z in H. cbn in H. lia.
Qed.

#[export] Instance exact_ExactNum : ExactNum Exact.exact_Num.
Proof.
  constructor.
  - intros [x| s |] [y| s' |]; cbn; try reflexivity.
    + now rewrite Qcplus_comm.
    + destruct s, s'; reflexivity.
  - intros [x| s |] [y| s' |] [z| s'' |]; cbn; try reflexivity;
      try (now rewrite Qcplus_assoc);
      try (destruct s; reflexivity);
      try (destruct s, s'; reflexivity);
      try (destruct s, s''; reflexivity);
      try (destruct s', s''; reflexivity);
      try (destruct s, s', s''; reflexivity).
  - intros [x| s |]; cbn; try reflexivity. now rewrite Qcplus_0_l.
  - intros [x| s |]; cbn; try reflexivity. now rewrite Qcmult_1_l.
  - intros [x| s |]; cbn; try discriminate. intros _. now rewrite Qcmult_0_l.
  - reflexivity.
  - reflexivity.
  - reflexivity.
  - intros n. apply of_Z_succ.
  - intros n. change (Exact.div (Exact.of_Z (Z.of_nat (S n))) (Exact.of_Z (Z.of_nat (S n))) = Exact.one).
    unfold Exact.of_Z. cbn [Exact.div].
    rewrite of_Z_pos_nonzero. unfold Exact.one. f_equal.
    apply Qcmult_inv_r. apply Qc_is0_false, of_Z_pos_nonzero.
Qed.

(** ** Tensor helpers *)

Section TensorFacts.
Context {N : Num}.

Lemma mapM_argmax (logits : list (list num)) :
  Forall (fun row => row <> []) logits ->
  mapM argmax logits = Return (map argmax_class logits).
Proof.
  induction 1 as [|row logits Hrow _ IH]; [reflexivity|].
  cbn [mapM map]. destruct row as [|x row]; [congruence|].
  cbn [argmax bind argmax_class]. now rewrite IH.
Qed.

Lemma mapM_length {A B : Type} (f : A -> outcome B) (l : list A) (bs : list B) :
  mapM f l = Return bs -> length bs = length l.
Proof.
  revert bs. induction l as [|a l IH]; intros bs; cbn [mapM].
  - intros [= <-]. reflexivity.
  - destruct (f a) as [b|e]; cbn [bind]; [|discriminate].
    destruct (mapM f l) as [bs'|e]; cbn [bind]; [|discriminate].
    intros [= <-]. cbn. now rewrite (IH bs').
Qed.

End TensorFacts.

Lemma select_length {A B : Type} (xs : list A) (ys : list B) (mask : list bool) :
  length xs = length mask -> length ys = length mask ->
  length (select xs mask) = length (select ys mask).
Proof.
  revert xs ys. induction mask as [|b mask IH]; intros [|x xs] [|y ys]; cbn;
    try discriminate; try reflexivity.
  intros [= Hx] [= Hy]. destruct b; cbn; auto.
Qed.

Lemma select_filter {A : Type} (p : A -> bool) (xs : list A) :
  select xs (map p xs) = filter p xs.
Proof.
  induction xs as [|x xs IH]; [reflexivity|].
  cbn. destruct (p x); now rewrite IH.
Qed.

Lemma index_mask_Return {A : Type} (xs ys : list A) (mask : list bool) :
  index_mask xs mask = Return ys -> length xs = length mask /\ ys = select xs mask.
Proof.
  unfold index_mask. destruct (length xs =? length mask) eqn:E; [|discriminate].
  intros [= <-]. split; [now apply Nat.eqb_eq|reflexivity].
Qed.

Lemma index_mask_same_length {A : Type} (xs : list A) (mask : list bool) :
  length xs = length mask -> index_mask xs mask = Return (select xs mask).
Proof.
  intros H. unfold index_mask. now rewrite H, Nat.eqb_refl.
Qed.

(** ** Accuracy *)

Section AccuracyFacts.
Context {N : Num}.

Lemma count_matches_hits (logits : list (list num)) (target : list Z) :
  length logits = length target ->
  count_matches (select (map argmax_class logits) (map Accuracy.valid target))
    (select target (map Accuracy.valid target))
  = Accuracy.hits logits target.
Proof.
  unfold Accuracy.hits.
  revert target. induction logits as [|row logits IH]; intros [|t target];
    cbn; try discriminate; try reflexivity.
  intros [= H]. unfold Accuracy.hit at 1. cbn [fst snd].
  destruct (Accuracy.valid t); cbn.
  - rewrite IH by assumption. now destruct (Z.of_nat (argmax_class row) =? t)%Z.
  - now apply IH.
Qed.

Lemma masked_well_shaped (logits : list (list num)) (target : list Z) :
  length logits = length target ->
  Forall (fun row => row <> []) logits ->
  Accuracy.masked logits target
  = Return (select (map argmax_class logits) (map Accuracy.valid target),
            filter Accuracy.valid target).
Proof.
  intros Hlen Hrows. unfold Accuracy.masked.
  rewrite mapM_argmax by assumption. cbn [bind].
  rewrite !index_mask_same_length by (now rewrite ?length_map).
  cbn [bind]. now rewrite select_filter.
Qed.

Lemma masked_same_shape (logits : list (list num)) (target : list Z) preds target' :
  Accuracy.masked logits target = Return (preds, target') ->
  length preds = length target'.
Proof.
  unfold Accuracy.masked.
  destruct (mapM argmax logits) as [ps|e]; cbn [bind]; [|discriminate].
  destruct (index_mask ps _) as [ps'|e] eqn:E1; cbn [bind]; [|discriminate].
  destruct (index_mask target _) as [ts'|e] eqn:E2; cbn [bind]; [|discriminate].
  intros [= <- <-].
  apply index_mask_Return in E1 as [L1 ->], E2 as [L2 ->].
  now apply select_length.
Qed.

Lemma filter_valid_all_ignored (target : list Z) :
  (forall t, In t target -> t = Accuracy.ignore_index) ->
  filter Accuracy.valid target = [].
Proof.
  induction target as [|t target IH]; intros H; [reflexivity|].
  cbn. unfold Accuracy.valid at 1. rewrite (H t) by now left.
  rewrite Z.eqb_refl. cbn. apply IH. intros u Hu. apply H. now right.
Qed.

Lemma filter_valid_nonempty (target : list Z) :
  (exists t, In t target /\ t <> Accuracy.ignore_index) ->
  filter Accuracy.valid target <> [].
Proof.
  intros (t & Hin & Ht) E.
  assert (Hf : In t (filter Accuracy.valid target)).
  { apply filter_In. split; [assumption|]. unfold Accuracy.valid.
    now apply negb_true_iff, Z.eqb_neq. }
  rewrite E in Hf. destruct Hf.
Qed.

End AccuracyFacts.

Section AccuracyClaims.
Context {N : Num}.

Lemma masked_target (logits : list (list num)) (target : list Z) preds target' :
  Accuracy.masked logits target = Return (preds, target') ->
  target' = filter Accuracy.valid target.
Proof.
  unfold Accuracy.masked.
  destruct (mapM argmax logits) as [ps|e]; cbn [bind]; [|discriminate].
  destruct (index_mask ps _) as [ps'|e]; cbn [bind]; [|discriminate].
  destruct (index_mask target _) as [ts'|e] eqn:E2; cbn [bind]; [|discriminate].
  intros [= _ <-]. apply index_mask_Return in E2 as [_ ->].
  apply select_filter.
Qed.

(** C6. When every entry of [target] is the ignore sentinel -100,
    [Accuracy.update] leaves [correct] and [total] as they were, and on
    a batch with one non-empty score vector per target entry it returns
    the early-exit signal 1 (the ordinary path returns [None]). *)
Theorem accuracy_update_all_ignored
    (logits : list (list num)) (target : list Z) (st : Accuracy.state) :
  (forall t, In t target -> t = (-100)%Z) ->
  snd (Accuracy.update logits target st) = st /\
  (length logits = length target ->
   Forall (fun row => row <> []) logits ->
   Accuracy.update logits target st = (Return (Some 1%Z), st)).
Proof.
  intros Hall. split.
  - unfold Accuracy.update.
    destruct (Accuracy.masked logits target) as [[preds target']|e] eqn:E;
      [|reflexivity].
    apply masked_target in E. rewrite filter_valid_all_ignored in E by exact Hall.
    now subst target'.
  - intros Hlen Hrows. unfold Accuracy.update.
    rewrite masked_well_shaped by assumption.
    now rewrite filter_valid_all_ignored by exact Hall.
Qed.

(** The ordinary path of [update], on a batch with one non-empty score
    vector per target entry and at least one target that is not ignored. *)
Lemma accuracy_update_valid
    (logits : list (list num)) (target : list Z) (st : Accuracy.state) :
  length logits = length target ->
  Forall (fun row => row <> []) logits ->
  (exists t, In t target /\ t <> (-100)%Z) ->
  length (select (map argmax_class logits) (map Accuracy.valid target))
  = length (select target (map Accuracy.valid target)) /\
  Accuracy.update logits target st
  = (Return None,
     {| Accuracy.correct :=
          nadd (Accuracy.correct st) (of_nat (Accuracy.hits logits target));
        Accuracy.total :=
          nadd (Accuracy.total st) (of_nat (Accuracy.valid_samples target)) |}) /\
  Accuracy.compute (snd (Accuracy.update logits target st))
  = ndiv (nadd (Accuracy.correct st) (of_nat (Accuracy.hits logits target)))
         (nadd (Accuracy.total st) (of_nat (Accuracy.valid_samples target))).
Proof.
  intros Hlen Hrows Hvalid.
  assert (Hshape :
    length (select (map argmax_class logits) (map Accuracy.valid target))
    = length (select target (map Accuracy.valid target))).
  { apply select_length; now rewrite ?length_map. }
  assert (Hupd : Accuracy.update logits target st
                 = (Return None,
                    {| Accuracy.correct :=
                         nadd (Accuracy.correct st) (of_nat (Accuracy.hits logits target));
                       Accuracy.total :=
                         nadd (Accuracy.total st)
                              (of_nat (Accuracy.valid_samples target)) |})).
  { unfold Accuracy.update. rewrite masked_well_shaped by assumption.
    assert (Hne := Hvalid). apply filter_valid_nonempty in Hne.
    assert (E0 : (length (filter Accuracy.valid target) =? 0) = false).
    { apply Nat.eqb_neq. intros E. now apply length_zero_iff_nil in E. }
    rewrite E0. rewrite select_filter in Hshape. rewrite Hshape, Nat.eqb_refl.
    rewrite <- (select_filter Accuracy.valid target) at 1.
    now rewrite count_matches_hits by assumption. }
  split; [exact Hshape|]. split; [exact Hupd|]. now rewrite Hupd.
Qed.

Lemma accuracy_update_never_asserts
    (logits : list (list num)) (target : list Z) (st : Accuracy.state) :
  fst (Accuracy.update logits target st) <> Raise AssertionError.
Proof.
  unfold Accuracy.update.
  destruct (Accuracy.masked logits target) as [[preds target']|e] eqn:E.
  - apply masked_same_shape in E. rewrite E, Nat.eqb_refl.
    destruct (length target' =? 0); cbn; discriminate.
  - cbn. intros [= ->]. revert E. unfold Accuracy.masked.
    destruct (mapM argmax logits) as [ps|e] eqn:E0; cbn [bind].
    + unfold index_mask.
      destruct (length ps =? _); cbn [bind]; [|discriminate].
      destruct (length target =? _); cbn [bind]; discriminate.
    + intros [= ->]. revert E0. clear.
      induction logits as [|row logits IH]; cbn [mapM]; [discriminate|].
      destruct row as [|x row]; cbn [argmax bind]; [discriminate|].
      destruct (mapM argmax logits); cbn [bind]; [discriminate|].
      intros [= ->]. now apply IH.
Qed.

End AccuracyClaims.

(** C8. For every [Accuracy.update] on a batch with one non-empty score
    vector per target entry and at least one target other than -100: the
    masked arg-max predictions and the masked targets have the same shape,
    the call returns [None], [correct] grows by the number of valid samples
    whose arg-max class equals the target, [total] grows by the number of
    valid samples, and [compute] returns [correct / total].  No call of
    [update] fails the shape assertion.  In binary32, the logits
    [[0.1, 0.9], [0.8, 0.2]] with the target [1, -100] give
    [compute() = 1.0]. *)
Theorem accuracy_update_and_compute :
  (forall (N : Num) (logits : list (list num)) (target : list Z)
          (st : Accuracy.state),
      length logits = length target ->
      Forall (fun row => row <> []) logits ->
      (exists t, In t target /\ t <> (-100)%Z) ->
      length (select (map argmax_class logits) (map Accuracy.valid target))
      = length (select target (map Accuracy.valid target)) /\
      Accuracy.update logits target st
      = (Return None,
         {| Accuracy.correct :=
              nadd (Accuracy.correct st) (of_nat (Accuracy.hits logits target));
            Accuracy.total :=
              nadd (Accuracy.total st) (of_nat (Accuracy.valid_samples target)) |}) /\
      Accuracy.compute (snd (Accuracy.update logits target st))
      = ndiv (nadd (Accuracy.correct st) (of_nat (Accuracy.hits logits target)))
             (nadd (Accuracy.total st) (of_nat (Accuracy.valid_samples target)))) /\
  (forall (N : Num) (logits : list (list num)) (target : list Z)
          (st : Accuracy.state),
      fst (Accuracy.update logits target st) <> Raise AssertionError) /\
  Accuracy.compute
    (snd (Accuracy.update (N := F32.f32_Num)
            Scenario.acc_logits Scenario.acc_target Accuracy.init))
  = F32.one.
Proof.
  split; [|split].
  - intros N logits target st. apply accuracy_update_valid.
  - intros N logits target st. apply accuracy_update_never_asserts.
  - vm_compute. reflexivity.
Qed.

Lemma accuracy_update_and_compute_witness :
  length Scenario.acc_logits = length Scenario.acc_target /\
  Forall (fun row => row <> []) Scenario.acc_logits /\
  (exists t, In t Scenario.acc_target /\ t <> (-100)%Z) /\
  Accuracy.update (N := F32.f32_Num)
    Scenario.acc_logits Scenario.acc_target Accuracy.init
  = (Return None,
     @Accuracy.Build_state F32.f32_Num
       (F32.add F32.zero (F32.of_Z 1)) (F32.add F32.zero (F32.of_Z 1))).
Proof.
  assert (H1 : length Scenario.acc_logits = length Scenario.acc_target)
    by reflexivity.
  assert (H2 : Forall (fun row : list F32.t => row <> []) Scenario.acc_logits)
    by (repeat constructor; discriminate).
  assert (H3 : exists t, In t Scenario.acc_target /\ t <> (-100)%Z)
    by (exists 1%Z; split; [now left | discriminate]).
  split; [exact H1|]. split; [exact H2|]. split; [exact H3|].
  exact (proj1 (proj2 (proj1 accuracy_update_and_compute F32.f32_Num
                         Scenario.acc_logits Scenario.acc_target Accuracy.init
                         H1 H2 H3))).
Defined.

Lemma accuracy_update_all_ignored_witness :
  (forall t, In t Scenario.ignored_target -> t = (-100)%Z) /\
  Accuracy.update (N := F32.f32_Num)
    Scenario.ignored_logits Scenario.ignored_target Accuracy.init
  = (Return (Some 1%Z), Accuracy.init).
Proof.
  assert (H : forall t, In t Scenario.ignored_target -> t = (-100)%Z).
  { intros t [<-|[<-|[]]]; reflexivity. }
  split; [exact H|].
  apply (proj2 (accuracy_update_all_ignored (N := F32.f32_Num)
                  Scenario.ignored_logits Scenario.ignored_target
                  Accuracy.init H)).
  - reflexivity.
  - repeat constructor; discriminate.
Defined.

(** ** Sums in exact arithmetic *)

Section ExactSums.
Context {N : Num} {E : ExactNum N}.

Lemma nadd_0_r (x : num) : nadd x num0 = x.
Proof. rewrite nadd_comm. apply nadd_0_l. Qed.

Lemma fold_left_nadd (xs : list num) (a : num) :
  fold_left nadd xs a = nadd a (tsum xs).
Proof.
  unfold tsum. revert a. induction xs as [|x xs IH]; intros a; cbn [fold_left].
  - now rewrite nadd_0_r.
  - rewrite IH, (IH (nadd num0 x)), nadd_0_l. now rewrite nadd_assoc.
Qed.

Lemma tsum_cons (x : num) (xs : list num) : tsum (x :: xs) = nadd x (tsum xs).
Proof.
  unfold tsum at 1. cbn [fold_left]. now rewrite fold_left_nadd, nadd_0_l.
Qed.

Lemma tsum_app (xs ys : list num) : tsum (xs ++ ys) = nadd (tsum xs) (tsum ys).
Proof.
  unfold tsum at 1. rewrite fold_left_app. now rewrite fold_left_nadd.
Qed.

Lemma tsum_concat (rows : list (list num)) :
  tsum (concat rows) = tsum (map tsum rows).
Proof.
  induction rows as [|row rows IH]; [reflexivity|].
  cbn [concat map]. now rewrite tsum_app, tsum_cons, IH.
Qed.

Lemma tsum_repeat_0 (n : nat) : tsum (repeat num0 n) = num0.
Proof.
  induction n as [|n IH]; [reflexivity|].
  cbn [repeat]. now rewrite tsum_cons, IH, nadd_0_l.
Qed.

Lemma tsum_repeat_1 (n : nat) : tsum (repeat num1 n) = of_nat n.
Proof.
  induction n as [|n IH]; [now rewrite of_nat_0|].
  cbn [repeat]. now rewrite tsum_cons, IH, of_nat_S, nadd_comm.
Qed.

Lemma of_nat_add (a b : nat) : of_nat (a + b) = nadd (of_nat a) (of_nat b).
Proof.
  induction b as [|b IH].
  - now rewrite Nat.add_0_r, of_nat_0, nadd_0_r.
  - now rewrite Nat.add_succ_r, !of_nat_S, IH, nadd_assoc.
Qed.

Lemma counted_of_nat (n : nat) : Scalar.counted n = of_nat n.
Proof.
  induction n as [|n IH].
  - now rewrite of_nat_0.
  - change (nadd (Scalar.counted n) num1 = of_nat (S n)).
    now rewrite IH, of_nat_S.
Qed.

End ExactSums.

(** ** Scalar *)

Section ScalarFacts.
Context {N : Num}.



End ScalarFacts.





(** ** Ratio metrics at a zero total *)

(** C2. In binary32, [compute] of the guarded ratio metrics (ROUGE-1,
    ROUGE-2, BLEU) returns 0.0 whenever [total] is zero, while [compute] of
    [Accuracy], [Scalar] and [VQAScore] divides without a guard: on a zero
    total it never returns 0.0, and on the freshly constructed or reset state
    it returns NaN. *)
Theorem ratio_metrics_zero_total :
  (forall x : F32.t,
      ROUGE1Score.compute (@ROUGE1Score.Build_state F32.f32_Num x F32.zero)
      = F32.zero /\
      ROUGE2Score.compute (@ROUGE2Score.Build_state F32.f32_Num x F32.zero)
      = F32.zero /\
      BLEUScore.compute (@BLEUScore.Build_state F32.f32_Num x F32.zero)
      = F32.zero) /\
  (forall x : F32.t,
      Accuracy.compute (@Accuracy.Build_state F32.f32_Num x F32.zero) <> F32.zero /\
      Scalar.compute (@Scalar.Build_state F32.f32_Num x F32.zero) <> F32.zero /\
      VQAScore.compute (@VQAScore.Build_state F32.f32_Num x F32.zero) <> F32.zero) /\
  Accuracy.compute (N := F32.f32_Num) Accuracy.init = F32.nan /\
  Scalar.compute (N := F32.f32_Num) Scalar.init = F32.nan /\
  VQAScore.compute (N := F32.f32_Num) VQAScore.init = F32.nan /\
  Accuracy.compute (N := F32.f32_Num) (Accuracy.reset Accuracy.init) = F32.nan.
Proof.
  split; [|split].
  - intros x. repeat split.
  - intros x. repeat split; destruct x as [s|s| |s m e]; discriminate.
  - repeat split.
Qed.

(** ** Buffered metrics on empty buffers *)

(** C4. With no [update] since construction or [reset], [compute] of
    [ROCScore] and of [F1Score] returns no scalar: [np.concatenate] raises
    [ValueError] on the empty buffer, the handler indexes [y_trues[0]], and
    the [IndexError] of that lookup reaches the caller. *)
Theorem buffered_compute_on_empty_buffers :
  forall (N : Num) (roc_auc_score f1_score : list num -> list num -> outcome num),
    np_concatenate (ROCScore.y_trues ROCScore.init) = Raise ValueError /\
    first (ROCScore.y_trues ROCScore.init) = Raise IndexError /\
    ROCScore.compute roc_auc_score ROCScore.init = Raise IndexError /\
    F1Score.compute f1_score F1Score.init = Raise IndexError /\
    (forall st, ROCScore.compute roc_auc_score (ROCScore.reset st) = Raise IndexError) /\
    (forall st, F1Score.compute f1_score (F1Score.reset st) = Raise IndexError).
Proof.
  intros N roc_auc_score f1_score. repeat split.
Qed.

(** ** The type split of VQARADScore *)

(** C1. Two calls of [VQARADScore.update] in binary32, each on one open
    question (type 1): the first earns the score 1.0, the second 0.0.  The
    code multiplies the type mask with the cumulative [score] and counts every
    sample of the batch in both totals: after the first call [close_total]
    is 1.0 although no closed question was seen, and after the second call
    [open_score] is 2.0 although the open questions earned 1.0 in all, the
    score of the first batch being added again. *)
Theorem vqarad_update_type_split :
  VQARADScore.score Scenario.rad_state1 = F32.of_Z 1 /\
  VQARADScore.close_score Scenario.rad_state1 = F32.zero /\
  VQARADScore.close_total Scenario.rad_state1 = F32.of_Z 1 /\
  VQARADScore.open_score Scenario.rad_state1 = F32.of_Z 1 /\
  VQARADScore.open_total Scenario.rad_state1 = F32.of_Z 1 /\
  VQARADScore.score Scenario.rad_state2 = F32.of_Z 1 /\
  VQARADScore.total Scenario.rad_state2 = F32.of_Z 2 /\
  VQARADScore.close_score Scenario.rad_state2 = F32.zero /\
  VQARADScore.close_total Scenario.rad_state2 = F32.of_Z 2 /\
  VQARADScore.open_score Scenario.rad_state2 = F32.of_Z 2 /\
  VQARADScore.open_total Scenario.rad_state2 = F32.of_Z 2.
Proof.
  vm_compute. repeat split.
Qed.

(** ** VQAScore *)

Section VQAScoreFacts.
Context {N : Num}.

Lemma well_shaped_length (logits target : list (list num)) :
  VQAScore.well_shaped logits target -> length logits = length target.
Proof. induction 1; cbn; congruence. Qed.

Lemma well_shaped_rows (logits target : list (list num)) :
  VQAScore.well_shaped logits target -> Forall (fun row => row <> []) logits.
Proof. induction 1 as [|l t ls ts [Hl _] _ IH]; constructor; assumption. Qed.

Lemma scatter_mul (logits target : list (list num)) :
  VQAScore.well_shaped logits target ->
  exists one_hots,
    VQAScore.scatter (map argmax_class logits) target = Return one_hots /\
    VQAScore.mul one_hots target = map VQAScore.credit_row (combine logits target).
Proof.
  induction 1 as [|l t ls ts [_ Hk] _ (one_hots & Hs & Hm)].
  - exists []. split; reflexivity.
  - exists (one_hot (argmax_class l) (length t) :: one_hots). split.
    + cbn [map VQAScore.scatter]. apply Nat.ltb_lt in Hk. rewrite Hk, Hs. reflexivity.
    + cbn [VQAScore.mul combine map]. now rewrite Hm.
Qed.

Lemma vqa_update_well_shaped (logits target : list (list num)) (st : VQAScore.state) :
  VQAScore.well_shaped logits target ->
  VQAScore.update logits target st
  = (Return tt,
     {| VQAScore.score :=
          nadd (VQAScore.score st)
               (tsum (concat (map VQAScore.credit_row (combine logits target))));
        VQAScore.total := nadd (VQAScore.total st) (of_nat (length logits)) |}).
Proof.
  intros H. unfold VQAScore.update, VQAScore.scores.
  rewrite mapM_argmax by (eapply well_shaped_rows; eassumption).
  cbn [bind]. destruct (scatter_mul H) as (one_hots & Hs & Hm).
  rewrite Hs. cbn [bind]. now rewrite Hm, length_map.
Qed.

Context {E : ExactNum N}.

Lemma tsum_row_mul_zeros (t : list num) :
  Forall (fun x => nfinite x = true) t ->
  tsum (row_mul (repeat num0 (length t)) t) = num0.
Proof.
  induction 1 as [|x t Hx _ IH]; [reflexivity|].
  cbn [length repeat row_mul]. now rewrite tsum_cons, nmul_0_l, IH, nadd_0_l.
Qed.

(** The dot product with a one-hot vector selects one entry of the target. *)
Lemma dot_one_hot (t : list num) (k : nat) :
  Forall (fun x => nfinite x = true) t ->
  k < length t ->
  tsum (row_mul (one_hot k (length t)) t) = nth k t num0.
Proof.
  intros Hfin. revert k. induction Hfin as [|x t Hx Hfin IH]; intros k Hk.
  - cbn in Hk. lia.
  - destruct k as [|k]; cbn [length one_hot row_mul nth].
    + now rewrite tsum_cons, nmul_1_l, tsum_row_mul_zeros, nadd_0_r.
    + rewrite tsum_cons, nmul_0_l, nadd_0_l by assumption.
      apply IH. cbn in Hk. lia.
Qed.

Lemma one_hot_length (k n : nat) : length (one_hot k n) = n.
Proof.
  revert k. induction n as [|n IH]; intros k; [reflexivity|].
  destruct k; cbn; [now rewrite repeat_length | now rewrite IH].
Qed.

Lemma one_hot_finite (k n : nat) : Forall (fun x => nfinite x = true) (one_hot k n).
Proof.
  revert k. induction n as [|n IH]; intros k; [constructor|].
  destruct k; cbn [one_hot]; constructor.
  - apply nfinite_1.
  - clear IH. induction n; cbn; constructor; auto using nfinite_0.
  - apply nfinite_0.
  - apply IH.
Qed.

Lemma one_hot_nth (k n : nat) : k < n -> nth k (one_hot k n) num0 = num1.
Proof.
  revert k. induction n as [|n IH]; intros k Hk; [lia|].
  destruct k; cbn; [reflexivity|]. apply IH. lia.
Qed.

Lemma credit_selects (sample : list num * list num) :
  Forall (fun x => nfinite x = true) (snd sample) ->
  argmax_class (fst sample) < length (snd sample) ->
  VQAScore.credit sample = nth (argmax_class (fst sample)) (snd sample) num0.
Proof. intros Hfin Hk. now apply dot_one_hot. Qed.

Lemma credit_one_hot_target (l t : list num) :
  argmax_class l < length t ->
  t = one_hot (argmax_class l) (length t) ->
  VQAScore.credit (l, t) = num1.
Proof.
  intros Hk Ht. rewrite credit_selects; cbn [fst snd]; try assumption.
  - rewrite Ht at 1. now apply one_hot_nth.
  - rewrite Ht. apply one_hot_finite.
Qed.

Lemma tsum_all_ones (xs : list num) :
  Forall (fun x => x = num1) xs -> tsum xs = of_nat (length xs).
Proof.
  induction 1 as [|x xs -> _ IH]; [now rewrite of_nat_0|].
  cbn [length]. now rewrite tsum_cons, IH, of_nat_S, nadd_comm.
Qed.

Lemma vqa_one_hot_batch (logits target : list (list num)) :
  VQAScore.well_shaped logits target ->
  logits <> [] ->
  Forall2 (fun l t => t = one_hot (argmax_class l) (length t)) logits target ->
  VQAScore.compute (snd (VQAScore.update logits target VQAScore.init)) = num1.
Proof.
  intros Hshape Hne Hhot. rewrite vqa_update_well_shaped by assumption.
  unfold VQAScore.compute. cbn [snd VQAScore.score VQAScore.total VQAScore.init].
  rewrite !nadd_0_l, tsum_concat, map_map.
  change (fun x => tsum (VQAScore.credit_row x)) with VQAScore.credit.
  rewrite tsum_all_ones.
  - rewrite length_map, length_combine, <- (well_shaped_length Hshape), Nat.min_id.
    destruct logits as [|l logits]; [congruence|]. apply ndiv_same.
  - apply Forall_map. clear Hne. induction Hshape as [|l t ls ts [_ Hk] _ IH].
    + constructor.
    + inversion Hhot as [|? ? ? ? Ht Hrest]; subst. cbn [combine]. constructor.
      * now apply credit_one_hot_target.
      * now apply IH.
Qed.

Lemma vqa_zero_mass_sample (l t : list num) (st : VQAScore.state) :
  l <> [] ->
  argmax_class l < length t ->
  Forall (fun x => nfinite x = true) t ->
  nth (argmax_class l) t num0 = num0 ->
  VQAScore.update [l] [t] st
  = (Return tt,
     {| VQAScore.score := VQAScore.score st;
        VQAScore.total := nadd (VQAScore.total st) num1 |}).
Proof.
  intros Hl Hk Hfin Hzero.
  rewrite vqa_update_well_shaped by (repeat constructor; assumption).
  cbn [combine map concat length]. rewrite app_nil_r.
  change (tsum (VQAScore.credit_row (l, t))) with (VQAScore.credit (l, t)).
  rewrite credit_selects by assumption. cbn [fst snd].
  now rewrite Hzero, nadd_0_r, of_nat_S, of_nat_0, nadd_0_l.
Qed.

End VQAScoreFacts.

(** C9. [VQAScore.update] adds to [score] the sum of the entries of
    [one_hots * target], the one-hot vector being at the arg-max class of the
    logits, and to [total] the number of samples.  In exact arithmetic this
    sum is the sum of the per-sample dot products, and the dot product of a
    sample with a finite target is the target's entry at the arg-max class.
    Hence a single update whose targets are one-hot at the arg-max class
    gives [compute() = 1.0], and a sample whose target has no mass at the
    arg-max class leaves [score] as it was while [total] grows by one.  Both
    cases hold in binary32 on the scenario batches. *)
Theorem vqa_update_credit :
  (forall (N : Num) (logits target : list (list num)) (st : VQAScore.state),
      VQAScore.well_shaped logits target ->
      VQAScore.update logits target st
      = (Return tt,
         {| VQAScore.score :=
              nadd (VQAScore.score st)
                   (tsum (concat (map VQAScore.credit_row (combine logits target))));
            VQAScore.total := nadd (VQAScore.total st) (of_nat (length logits)) |})) /\
  (forall (N : Num) (E : ExactNum N) (samples : list (list num * list num)),
      tsum (concat (map VQAScore.credit_row samples))
      = tsum (map VQAScore.credit samples)) /\
  (forall (N : Num) (E : ExactNum N) (sample : list num * list num),
      Forall (fun x => nfinite x = true) (snd sample) ->
      argmax_class (fst sample) < length (snd sample) ->
      VQAScore.credit sample = nth (argmax_class (fst sample)) (snd sample) num0) /\
  (forall (N : Num) (E : ExactNum N) (logits target : list (list num)),
      VQAScore.well_shaped logits target ->
      logits <> [] ->
      Forall2 (fun l t => t = one_hot (argmax_class l) (length t)) logits target ->
      VQAScore.compute (snd (VQAScore.update logits target VQAScore.init)) = num1) /\
  (forall (N : Num) (E : ExactNum N) (l t : list num) (st : VQAScore.state),
      l <> [] ->
      argmax_class l < length t ->
      Forall (fun x => nfinite x = true) t ->
      nth (argmax_class l) t num0 = num0 ->
      VQAScore.update [l] [t] st
      = (Return tt,
         {| VQAScore.score := VQAScore.score st;
            VQAScore.total := nadd (VQAScore.total st) num1 |})) /\
  VQAScore.compute
    (snd (VQAScore.update (N := F32.f32_Num)
            Scenario.vqa_logits Scenario.vqa_target_hit VQAScore.init))
  = F32.one /\
  VQAScore.update (N := F32.f32_Num)
    Scenario.vqa_logits Scenario.vqa_target_miss VQAScore.init
  = (Return tt, @VQAScore.Build_state F32.f32_Num F32.zero F32.one).
Proof.
  split; [|split; [|split; [|split; [|split; [|split]]]]].
  - intros N logits target st. apply vqa_update_well_shaped.
  - intros N E samples. rewrite tsum_concat, map_map. reflexivity.
  - intros N E sample. apply credit_selects.
  - intros N E logits target. apply vqa_one_hot_batch.
  - intros N E l t st. apply vqa_zero_mass_sample.
  - vm_compute. reflexivity.
  - vm_compute. reflexivity.
Qed.

Lemma vqa_update_credit_witness :
  VQAScore.well_shaped Scenario.exact_logits Scenario.exact_target /\
  Scenario.exact_logits <> [] /\
  Forall2 (fun l t => t = one_hot (argmax_class l) (length t))
    Scenario.exact_logits Scenario.exact_target /\
  VQAScore.compute
    (snd (VQAScore.update Scenario.exact_logits Scenario.exact_target
            VQAScore.init))
  = Exact.one.
Proof.
  assert (H1 : VQAScore.well_shaped Scenario.exact_logits Scenario.exact_target).
  { repeat constructor. discriminate. }
  assert (H2 : Scenario.exact_logits <> []) by discriminate.
  assert (H3 : Forall2 (fun l t => t = one_hot (argmax_class l) (length t))
                 Scenario.exact_logits Scenario.exact_target).
  { repeat constructor. }
  split; [exact H1|]. split; [exact H2|]. split; [exact H3|].
  exact (proj1 (proj2 (proj2 (proj2 vqa_update_credit)))
           Exact.exact_Num exact_ExactNum _ _ H1 H2 H3).
Defined.

(** ** The watermark of VQARADScore *)

Section WatermarkFacts.
Context {N : Num}.








Lemma run_cons (o : VQARADScore.op) (ops : list VQARADScore.op)
    (st : VQARADScore.state) :
  VQARADScore.run (o :: ops) st = VQARADScore.run ops (snd (VQARADScore.step o st)).
Proof. reflexivity. Qed.


End WatermarkFacts.






(** ** Order of the update calls *)


Section UpdateOrder.
Context {N : Num}.

Lemma accuracy_update_contribution
    (logits : list (list num)) (target : list Z) (st : Accuracy.state) :
  snd (Accuracy.update logits target st)
  = match Accuracy.contribution logits target with
    | Some (c, n) =>
        {| Accuracy.correct := nadd (Accuracy.correct st) (of_nat c);
           Accuracy.total := nadd (Accuracy.total st) (of_nat n) |}
    | None => st
    end.
Proof.
  unfold Accuracy.update, Accuracy.contribution.
  destruct (Accuracy.masked logits target) as [[preds target']|e]; [|reflexivity].
  destruct (length target' =? 0); [reflexivity|].
  destruct (length preds =? length target'); reflexivity.
Qed.

Lemma scalar_updates_fold (args : list Scalar.arg) (st : Scalar.state) :
  Scalar.updates args st = fold_left (fun s a => Scalar.update a s) args st.
Proof. reflexivity. Qed.

Context {E : ExactNum N}.




End UpdateOrder.

(** ** Buffered metrics on filled buffers *)




Section BufferedFacts.
Context {N : Num}.
Variable sigmoid : num -> num.
Variable stat : list num -> list num -> outcome num.

Lemma roc_updates_buffers (batches : list (list num * list num)) (st : ROCScore.state) :
  ROCScore.updates sigmoid batches st
  = {| ROCScore.y_trues := ROCScore.y_trues st ++ map snd batches;
       ROCScore.y_scores :=
         ROCScore.y_scores st ++ map (fun b => map sigmoid (fst b)) batches |}.
Proof.
  unfold ROCScore.updates. revert st.
  induction batches as [|b batches IH]; intros st; cbn [fold_left map].
  - rewrite !app_nil_r. now destruct st.
  - rewrite IH. unfold ROCScore.update. cbn [ROCScore.y_trues ROCScore.y_scores].
    now rewrite <- !app_assoc.
Qed.

Lemma f1_updates_buffers (batches : list (list num * list num)) (st : F1Score.state) :
  F1Score.updates sigmoid batches st
  = {| F1Score.y_trues := F1Score.y_trues st ++ map snd batches;
       F1Score.y_preds :=
         F1Score.y_preds st ++ map (fun b => F1Score.threshold sigmoid (fst b)) batches |}.
Proof.
  unfold F1Score.updates. revert st.
  induction batches as [|b batches IH]; intros st; cbn [fold_left map].
  - rewrite !app_nil_r. now destruct st.
  - rewrite IH. unfold F1Score.update. cbn [F1Score.y_trues F1Score.y_preds].
    now rewrite <- !app_assoc.
Qed.









End BufferedFacts.

(** ** The reference statistics *)

Section SklmFacts.
Context {N : Num}.







End SklmFacts.

(** ** Buffered metrics on a single-class buffer *)




(** ** Order of the update calls: the claims *)




(** * Further properties of the metrics *)

(** ** Accuracy: malformed batches *)

Section AccuracyFailures.
Context {N : Num}.

Lemma rows_empty_or_not (logits : list (list num)) :
  Forall (fun row => row <> []) logits \/ Exists (fun row => row = []) logits.
Proof.
  induction logits as [|row logits [IH|IH]].
  - left. constructor.
  - destruct row as [|x row].
    + right. now left.
    + left. constructor; [discriminate|assumption].
  - right. now right.
Qed.

Lemma mapM_argmax_empty_row (logits : list (list num)) :
  Exists (fun row => row = []) logits -> mapM argmax logits = Raise IndexError.
Proof.
  induction 1 as [row logits ->|row logits _ IH]; [reflexivity|].
  cbn [mapM]. destruct row as [|x row]; [reflexivity|].
  cbn [argmax bind]. now rewrite IH.
Qed.

Lemma masked_malformed (logits : list (list num)) (target : list Z) :
  length logits <> length target \/ Exists (fun row => row = []) logits ->
  Accuracy.masked logits target = Raise IndexError.
Proof.
  intros H. unfold Accuracy.masked.
  destruct (rows_empty_or_not logits) as [Hrows|Hrows].
  - destruct H as [Hlen|H].
    + rewrite mapM_argmax by assumption. cbn [bind]. unfold index_mask at 1.
      rewrite !length_map. apply Nat.eqb_neq in Hlen. now rewrite Hlen.
    + now rewrite mapM_argmax_empty_row.
  - now rewrite mapM_argmax_empty_row.
Qed.

End AccuracyFailures.

(** X1. [Accuracy.update] raises exactly on a malformed batch, one with a
    number of score vectors other than the number of targets or with an empty
    score vector; the exception is the [IndexError] of the arg-max or of the
    mask indexing, and [correct] and [total] are left as they were. *)
Theorem accuracy_update_malformed :
  forall (N : Num) (logits : list (list num)) (target : list Z) (st : Accuracy.state),
    ((length logits <> length target \/ Exists (fun row => row = []) logits) <->
     Accuracy.update logits target st = (Raise IndexError, st)) /\
    (forall e : exn,
        fst (Accuracy.update logits target st) = Raise e ->
        Accuracy.update logits target st = (Raise IndexError, st)).
Proof.
  intros N logits target st.
  assert (Hfwd : length logits <> length target
                 \/ Exists (fun row => row = []) logits ->
                 Accuracy.update logits target st = (Raise IndexError, st)).
  { intros H. unfold Accuracy.update. now rewrite masked_malformed. }
  assert (Hwell : length logits = length target ->
                  Forall (fun row => row <> []) logits ->
                  forall e, fst (Accuracy.update logits target st) <> Raise e).
  { intros Hlen Hrows e. unfold Accuracy.update.
    rewrite masked_well_shaped by assumption.
    destruct (length (filter Accuracy.valid target) =? 0); [discriminate|].
    rewrite <- (select_filter Accuracy.valid target).
    rewrite (select_length (map argmax_class logits) target
               (map Accuracy.valid target)) by (now rewrite ?length_map).
    rewrite Nat.eqb_refl. discriminate. }
  assert (Hbwd : forall e, fst (Accuracy.update logits target st) = Raise e ->
                 length logits <> length target
                 \/ Exists (fun row => row = []) logits).
  { intros e He. destruct (rows_empty_or_not logits) as [Hrows|Hrows];
      [|now right].
    destruct (Nat.eq_dec (length logits) (length target)) as [Hlen|Hlen];
      [|now left].
    exfalso. exact (Hwell Hlen Hrows e He). }
  split; [split|].
  - exact Hfwd.
  - intros H. apply (Hbwd IndexError). now rewrite H.
  - intros e He. apply Hfwd. exact (Hbwd e He).
Qed.

Lemma accuracy_update_malformed_witness :
  Accuracy.update (N := F32.f32_Num) Scenario.acc_logits [1%Z] Accuracy.init
  = (Raise IndexError, Accuracy.init).
Proof.
  apply (proj1 (proj1 (@accuracy_update_malformed F32.f32_Num Scenario.acc_logits
                         [1%Z] Accuracy.init))).
  left. cbn. discriminate.
Defined.

(** ** Accuracy: the range of the result *)

Lemma count_matches_le (preds : list nat) (target : list Z) :
  count_matches preds target <= length target.
Proof.
  revert target. induction preds as [|p preds IH]; intros [|t target]; cbn;
    try lia.
  specialize (IH target). destruct (Z.of_nat p =? t)%Z; lia.
Qed.

Lemma Qc_of_Z_le (a b : Z) :
  (a <= b)%Z -> (Q2Qc (inject_Z a) <= Q2Qc (inject_Z b))%Qc.
Proof.
  intros H. unfold Qcle. cbn [this Q2Qc]. rewrite !Qred_correct.
  rewrite <- Zle_Qle. exact H.
Qed.

Lemma Qc_of_Z_lt (a b : Z) :
  (a < b)%Z -> (Q2Qc (inject_Z a) < Q2Qc (inject_Z b))%Qc.
Proof.
  intros H. unfold Qclt. cbn [this Q2Qc]. rewrite !Qred_correct.
  rewrite <- Zlt_Qlt. exact H.
Qed.

Section AccuracyRange.
Context {N : Num}.

Lemma contribution_bounds (logits : list (list num)) (target : list Z) (c n : nat) :
  Accuracy.contribution logits target = Some (c, n) -> c <= n /\ 0 < n.
Proof.
  unfold Accuracy.contribution.
  destruct (Accuracy.masked logits target) as [[preds target']|e]; [|discriminate].
  destruct (length target' =? 0) eqn:E0; [discriminate|].
  destruct (length preds =? length target'); [|discriminate].
  intros [= <- <-]. apply Nat.eqb_neq in E0.
  split; [apply count_matches_le | lia].
Qed.

Lemma accuracy_counts_step
    (batches : list (list (list num) * list Z)) (acc : nat * nat) :
  fold_left
    (fun acc b =>
       match Accuracy.contribution (fst b) (snd b) with
       | Some (c, n) => (fst acc + c, snd acc + n)
       | None => acc
       end)
    batches acc
  = (fst acc + fst (accuracy_counts batches), snd acc + snd (accuracy_counts batches)).
Proof.
  unfold accuracy_counts. revert acc.
  induction batches as [|b batches IH]; intros acc; cbn [fold_left].
  - destruct acc. cbn. f_equal; lia.
  - rewrite IH. rewrite (IH (match _ with Some _ => _ | None => _ end)).
    destruct (Accuracy.contribution (fst b) (snd b)) as [[c n]|]; cbn [fst snd];
      f_equal; lia.
Qed.

Lemma accuracy_counts_cons
    (b : list (list num) * list Z) (batches : list (list (list num) * list Z)) :
  accuracy_counts (b :: batches)
  = match Accuracy.contribution (fst b) (snd b) with
    | Some (c, n) =>
        (c + fst (accuracy_counts batches), n + snd (accuracy_counts batches))
    | None => accuracy_counts batches
    end.
Proof.
  unfold accuracy_counts at 1. cbn [fold_left]. rewrite accuracy_counts_step.
  destruct (Accuracy.contribution (fst b) (snd b)) as [[c n]|]; cbn [fst snd].
  - reflexivity.
  - now destruct (accuracy_counts batches).
Qed.

Lemma accuracy_counts_le (batches : list (list (list num) * list Z)) :
  fst (accuracy_counts batches) <= snd (accuracy_counts batches).
Proof.
  induction batches as [|b batches IH]; [cbn; lia|].
  rewrite accuracy_counts_cons.
  destruct (Accuracy.contribution (fst b) (snd b)) as [[c n]|] eqn:E; cbn [fst snd].
  - apply contribution_bounds in E. lia.
  - exact IH.
Qed.

Context {E : ExactNum N}.

Lemma accuracy_updates_counts
    (batches : list (list (list num) * list Z)) (st : Accuracy.state) :
  Accuracy.updates batches st
  = {| Accuracy.correct :=
         nadd (Accuracy.correct st) (of_nat (fst (accuracy_counts batches)));
       Accuracy.total :=
         nadd (Accuracy.total st) (of_nat (snd (accuracy_counts batches))) |}.
Proof.
  unfold Accuracy.updates. revert st.
  induction batches as [|b batches IH]; intros st; cbn [fold_left].
  - cbn. rewrite of_nat_0, !nadd_0_r. now destruct st.
  - rewrite IH, accuracy_update_contribution, accuracy_counts_cons.
    destruct (Accuracy.contribution (fst b) (snd b)) as [[c n]|];
      cbn [fst snd Accuracy.correct Accuracy.total].
    + now rewrite !of_nat_add, !nadd_assoc.
    + reflexivity.
Qed.

End AccuracyRange.

(** X2. In exact arithmetic, the [Accuracy] state after any sequence of
    [update] calls from the initial state holds the number of correct
    samples and the number of valid samples, the first never above the
    second; [compute] is NaN when no valid sample was seen and otherwise a
    rational between 0 and 1. *)
Theorem accuracy_compute_range :
  forall batches : list (list (list (@num Exact.exact_Num)) * list Z),
    let C := fst (accuracy_counts batches) in
    let T := snd (accuracy_counts batches) in
    C <= T /\
    Accuracy.updates batches Accuracy.init
    = @Accuracy.Build_state Exact.exact_Num
        (Exact.of_Z (Z.of_nat C)) (Exact.of_Z (Z.of_nat T)) /\
    (T = 0 ->
     Accuracy.compute (Accuracy.updates batches Accuracy.init) = Exact.NaN) /\
    (0 < T ->
     exists q : Qc,
       Accuracy.compute (Accuracy.updates batches Accuracy.init) = Exact.Fin q /\
       (0 <= q)%Qc /\ (q <= 1)%Qc).
Proof.
  intros batches C T.
  assert (HCT : C <= T) by apply accuracy_counts_le.
  assert (Hst : Accuracy.updates batches Accuracy.init
                = @Accuracy.Build_state Exact.exact_Num
                    (Exact.of_Z (Z.of_nat C)) (Exact.of_Z (Z.of_nat T))).
  { rewrite accuracy_updates_counts. cbn [Accuracy.init Accuracy.correct Accuracy.total].
    now rewrite !(nadd_0_l (N := Exact.exact_Num)). }
  split; [exact HCT|]. split; [exact Hst|]. split.
  - intros HT. rewrite Hst. assert (HC : C = 0) by lia. now rewrite HT, HC.
  - intros HT. rewrite Hst. unfold Accuracy.compute.
    cbn [Accuracy.correct Accuracy.total].
    destruct T as [|T']; [lia|].
    change (@ndiv Exact.exact_Num) with Exact.div.
    unfold Exact.of_Z. cbn [Exact.div]. rewrite of_Z_pos_nonzero.
    eexists. split; [reflexivity|].
    set (c := Q2Qc (inject_Z (Z.of_nat C))).
    set (t := Q2Qc (inject_Z (Z.of_nat (S T')))).
    assert (Ht : (0 < t)%Qc).
    { change 0%Qc with (Q2Qc (inject_Z 0)). apply Qc_of_Z_lt. lia. }
    assert (Hne : t <> 0%Qc) by (intros Heq; rewrite Heq in Ht; now apply Qclt_not_eq in Ht).
    assert (Hmul : (c / t * t)%Qc = c).
    { rewrite Qcmult_comm. now apply Qcmult_div_r. }
    split.
    + apply (Qcmult_lt_0_le_reg_r _ _ t Ht). rewrite Hmul, Qcmult_0_l.
      change 0%Qc with (Q2Qc (inject_Z 0)). apply Qc_of_Z_le. lia.
    + apply (Qcmult_lt_0_le_reg_r _ _ t Ht). rewrite Hmul, Qcmult_1_l.
      apply Qc_of_Z_le. lia.
Qed.

Lemma accuracy_compute_range_witness :
  0 < snd (accuracy_counts Scenario.exact_acc_batches) /\
  exists q : Qc,
    Accuracy.compute (Accuracy.updates Scenario.exact_acc_batches Accuracy.init)
    = Exact.Fin q /\ (0 <= q)%Qc /\ (q <= 1)%Qc.
Proof.
  assert (H : 0 < snd (accuracy_counts Scenario.exact_acc_batches)).
  { vm_compute. lia. }
  split; [exact H|].
  exact (proj2 (proj2 (proj2 (accuracy_compute_range Scenario.exact_acc_batches))) H).
Defined.

(** ** VQAScore: outcomes of an update *)

Section VQAScoreOutcomes.
Context {N : Num}.

Lemma scatter_raises_RuntimeError (idx : list nat) (target : list (list num)) (e : exn) :
  VQAScore.scatter idx target = Raise e -> e = RuntimeError.
Proof.
  revert target. induction idx as [|k idx IH]; intros target; cbn [VQAScore.scatter].
  - discriminate.
  - destruct target as [|row target]; [now intros [= <-]|].
    destruct (k <? length row); [|now intros [= <-]].
    destruct (VQAScore.scatter idx target) as [rest|e'] eqn:Es; cbn [bind];
      [discriminate|].
    intros [= <-]. now apply (IH target).
Qed.

Lemma scatter_too_many_rows (idx : list nat) (target : list (list num)) :
  length target < length idx -> VQAScore.scatter idx target = Raise RuntimeError.
Proof.
  revert target. induction idx as [|k idx IH]; intros target Hlen;
    cbn [VQAScore.scatter].
  - cbn in Hlen. lia.
  - destruct target as [|row target]; [reflexivity|].
    destruct (k <? length row); [|reflexivity].
    rewrite IH by (cbn in Hlen; lia). reflexivity.
Qed.

End VQAScoreOutcomes.

(** X3. [VQAScore.update] changes [score] and [total] only when it returns.
    With more score vectors than target rows the scatter raises
    [RuntimeError]; an empty score vector raises the [IndexError] of the
    arg-max.  When the call returns, [total] has grown by the number of score
    vectors, also when the target has more rows than that. *)
Theorem vqa_update_outcomes :
  forall (N : Num) (logits target : list (list num)) (st : VQAScore.state),
    (forall e : exn,
        fst (VQAScore.update logits target st) = Raise e ->
        snd (VQAScore.update logits target st) = st) /\
    (Exists (fun row => row = []) logits ->
     VQAScore.update logits target st = (Raise IndexError, st)) /\
    (Forall (fun row => row <> []) logits ->
     length target < length logits ->
     VQAScore.update logits target st = (Raise RuntimeError, st)) /\
    (forall st' : VQAScore.state,
        VQAScore.update logits target st = (Return tt, st') ->
        VQAScore.total st' = nadd (VQAScore.total st) (of_nat (length logits))).
Proof.
  intros N logits target st. repeat apply conj.
  - intros e. unfold VQAScore.update.
    destruct (VQAScore.scores logits target) as [[sc n]|e']; [discriminate|reflexivity].
  - intros H. unfold VQAScore.update, VQAScore.scores.
    now rewrite mapM_argmax_empty_row.
  - intros Hrows Hlen. unfold VQAScore.update, VQAScore.scores.
    rewrite mapM_argmax by assumption. cbn [bind].
    rewrite scatter_too_many_rows by (now rewrite length_map). reflexivity.
  - intros st'. unfold VQAScore.update, VQAScore.scores.
    destruct (mapM argmax logits) as [idx|e] eqn:Ei; cbn [bind]; [|discriminate].
    destruct (VQAScore.scatter idx target) as [one_hots|e]; cbn [bind];
      [|discriminate].
    intros [= <-]. cbn [VQAScore.total]. now rewrite (mapM_length _ _ Ei).
Qed.

Lemma vqa_update_outcomes_witness :
  VQAScore.update (N := F32.f32_Num)
    (Scenario.vqa_logits ++ Scenario.vqa_logits) Scenario.vqa_target_hit
    VQAScore.init
  = (Raise RuntimeError, VQAScore.init).
Proof.
  apply (proj1 (proj2 (proj2 (@vqa_update_outcomes F32.f32_Num
           (Scenario.vqa_logits ++ Scenario.vqa_logits) Scenario.vqa_target_hit
           VQAScore.init)))).
  - repeat constructor; discriminate.
  - cbn. lia.
Defined.

(** ** VQARADScore: the two type totals *)

Section TypeTotals.
Context {N : Num}.

Lemma step_totals_agree (o : VQARADScore.op) (st : VQARADScore.state) :
  VQARADScore.close_total st = VQARADScore.open_total st ->
  VQARADScore.close_total (snd (VQARADScore.step o st))
  = VQARADScore.open_total (snd (VQARADScore.step o st)).
Proof.
  intros H. destruct o; cbn [VQARADScore.step snd]; try assumption.
  - unfold VQARADScore.update.
    destruct (VQAScore.update logits target (VQARADScore.base st)) as [[u|e] b];
      cbn [snd VQARADScore.close_total VQARADScore.open_total]; [|assumption].
    unfold VQARADScore.type_scores. now rewrite !length_map, H.
  - reflexivity.
  - unfold VQARADScore.get_best_score.
    now destruct (VQARADScore.improves st).
Qed.

End TypeTotals.

(** X4. [close_total] and [open_total] of [VQARADScore] agree after every
    sequence of calls from a state in which they agree, the initial one in
    particular: each [update] that returns adds the number of entries of
    [types] to both, whatever the types are, and [reset] zeroes both. *)
Theorem vqarad_type_totals_agree :
  forall (N : Num) (ops : list VQARADScore.op) (st : VQARADScore.state),
    (VQARADScore.close_total st = VQARADScore.open_total st ->
     VQARADScore.close_total (VQARADScore.run ops st)
     = VQARADScore.open_total (VQARADScore.run ops st)) /\
    VQARADScore.close_total (VQARADScore.run ops VQARADScore.init)
    = VQARADScore.open_total (VQARADScore.run ops VQARADScore.init) /\
    (forall (logits target : list (list num)) (types : list Z) (st' : VQARADScore.state),
        VQARADScore.update logits target types st = (Return tt, st') ->
        VQARADScore.close_total st'
        = nadd (VQARADScore.close_total st) (of_nat (length types)) /\
        VQARADScore.open_total st'
        = nadd (VQARADScore.open_total st) (of_nat (length types))).
Proof.
  intros N ops st.
  assert (Hrun : forall s, VQARADScore.close_total s = VQARADScore.open_total s ->
                 VQARADScore.close_total (VQARADScore.run ops s)
                 = VQARADScore.open_total (VQARADScore.run ops s)).
  { induction ops as [|o ops IH]; intros s Hs; [exact Hs|].
    rewrite run_cons. apply IH. now apply step_totals_agree. }
  split; [apply Hrun|]. split; [now apply Hrun|].
  intros logits target types st'. unfold VQARADScore.update.
  destruct (VQAScore.update logits target (VQARADScore.base st)) as [[u|e] b];
    [|discriminate].
  intros [= <-]. cbn [VQARADScore.close_total VQARADScore.open_total].
  unfold VQARADScore.type_scores. now rewrite !length_map.
Qed.

Lemma vqarad_type_totals_agree_witness :
  VQARADScore.close_total Scenario.rad_state1 = F32.of_Z 1 /\
  VQARADScore.open_total Scenario.rad_state1 = F32.of_Z 1.
Proof.
  assert (H : VQARADScore.update (N := F32.f32_Num) Scenario.rad_logits1
                Scenario.rad_target Scenario.rad_types VQARADScore.init
              = (Return tt, Scenario.rad_state1)) by reflexivity.
  exact (proj2 (proj2 (@vqarad_type_totals_agree F32.f32_Num [] VQARADScore.init))
           Scenario.rad_logits1 Scenario.rad_target Scenario.rad_types
           Scenario.rad_state1 H).
Defined.

(** ** VQARADScore: the watermark across a reset *)

(** X5. In binary32, [get_best_score] called right after [reset] finds the
    score 0.0 / 0.0 = NaN, which exceeds nothing: the call returns the stored
    [best_score] and leaves the state, the watermark included, as [reset]
    left it. *)
Theorem vqarad_best_score_after_reset :
  forall st : VQARADScore.state (N := F32.f32_Num),
    VQARADScore.compute (VQARADScore.reset st) = F32.nan /\
    VQARADScore.improves (VQARADScore.reset st) = false /\
    VQARADScore.get_best_score (VQARADScore.reset st)
    = (VQARADScore.best_score st, VQARADScore.reset st).
Proof.
  intros st.
  assert (H : VQARADScore.improves (VQARADScore.reset st) = false).
  { unfold VQARADScore.improves. cbn. unfold F32.gtb, SFltb, SFcompare.
    now destruct (VQARADScore.best_score st). }
  split; [reflexivity|]. split; [exact H|].
  unfold VQARADScore.get_best_score. now rewrite H.
Qed.

(** ** The loops of the text-generation metrics *)

Section TextLoops.
Context {N : Num} {text : Type}.
Variable scorer : text -> text -> num.

Lemma rouge1_loop_ok (pairs : list (list text * list text)) (st : ROUGE1Score.state) :
  Forall rouge_pair_ok pairs ->
  ROUGE1Score.update_loop scorer pairs st
  = (Return tt,
     {| ROUGE1Score.rouge1 :=
          fold_left nadd (map (rouge_pair_score scorer) pairs) (ROUGE1Score.rouge1 st);
        ROUGE1Score.total :=
          Nat.iter (length pairs) (fun t => nadd t num1) (ROUGE1Score.total st) |}).
Proof.
  intros H. revert st. induction H as [|[pred target] pairs [Hp Ht] _ IH]; intros st.
  - now destruct st.
  - cbn [fst snd] in Hp, Ht. destruct pred as [|p0 pred]; [congruence|].
    destruct target as [|t0 target]; [congruence|].
    cbn [ROUGE1Score.update_loop]. rewrite IH.
    cbn [ROUGE1Score.rouge1 ROUGE1Score.total map fold_left length].
    now rewrite Nat.iter_succ_r.
Qed.

Lemma rouge1_loop_stops (pre rest : list (list text * list text))
    (bad : list text * list text) (st : ROUGE1Score.state) :
  Forall rouge_pair_ok pre ->
  fst bad = [] \/ snd bad = [] ->
  ROUGE1Score.update_loop scorer (pre ++ bad :: rest) st
  = (Raise IndexError, snd (ROUGE1Score.update_loop scorer pre st)).
Proof.
  intros H Hbad. revert st. induction H as [|[pred target] pre [Hp Ht] _ IH]; intros st.
  - destruct bad as [[|p0 pred] [|t0 target]]; cbn in Hbad |- *;
      try reflexivity. destruct Hbad; discriminate.
  - cbn [fst snd] in Hp, Ht. destruct pred as [|p0 pred]; [congruence|].
    destruct target as [|t0 target]; [congruence|].
    cbn [app ROUGE1Score.update_loop]. apply IH.
Qed.

Lemma rouge2_loop_ok (pairs : list (list text * list text)) (st : ROUGE2Score.state) :
  Forall rouge_pair_ok pairs ->
  ROUGE2Score.update_loop scorer pairs st
  = (Return tt,
     {| ROUGE2Score.rouge2 :=
          fold_left nadd (map (rouge_pair_score scorer) pairs) (ROUGE2Score.rouge2 st);
        ROUGE2Score.total :=
          Nat.iter (length pairs) (fun t => nadd t num1) (ROUGE2Score.total st) |}).
Proof.
  intros H. revert st. induction H as [|[pred target] pairs [Hp Ht] _ IH]; intros st.
  - now destruct st.
  - cbn [fst snd] in Hp, Ht. destruct pred as [|p0 pred]; [congruence|].
    destruct target as [|t0 target]; [congruence|].
    cbn [ROUGE2Score.update_loop]. rewrite IH.
    cbn [ROUGE2Score.rouge2 ROUGE2Score.total map fold_left length].
    now rewrite Nat.iter_succ_r.
Qed.

Lemma rouge2_loop_stops (pre rest : list (list text * list text))
    (bad : list text * list text) (st : ROUGE2Score.state) :
  Forall rouge_pair_ok pre ->
  fst bad = [] \/ snd bad = [] ->
  ROUGE2Score.update_loop scorer (pre ++ bad :: rest) st
  = (Raise IndexError, snd (ROUGE2Score.update_loop scorer pre st)).
Proof.
  intros H Hbad. revert st. induction H as [|[pred target] pre [Hp Ht] _ IH]; intros st.
  - destruct bad as [[|p0 pred] [|t0 target]]; cbn in Hbad |- *;
      try reflexivity. destruct Hbad; discriminate.
  - cbn [fst snd] in Hp, Ht. destruct pred as [|p0 pred]; [congruence|].
    destruct target as [|t0 target]; [congruence|].
    cbn [app ROUGE2Score.update_loop]. apply IH.
Qed.

Lemma bleu_update_state (preds targets : list text) (st : BLEUScore.state) :
  BLEUScore.update scorer preds targets st
  = {| BLEUScore.score :=
         fold_left nadd
           (map (fun pr => scorer (snd pr) (fst pr)) (combine preds targets))
           (BLEUScore.score st);
       BLEUScore.total :=
         Nat.iter (Nat.min (length preds) (length targets))
           (fun t => nadd t num1) (BLEUScore.total st) |}.
Proof.
  unfold BLEUScore.update. rewrite <- length_combine.
  generalize (combine preds targets) as pairs. intros pairs. revert st.
  induction pairs as [|pr pairs IH]; intros st; cbn [fold_left map length].
  - now destruct st.
  - rewrite IH. cbn [BLEUScore.score BLEUScore.total].
    now rewrite Nat.iter_succ_r.
Qed.

End TextLoops.

(** X6. The loop of [ROUGE1Score.update] and of [ROUGE2Score.update] runs
    over the zipped (prediction, reference) items.  While every item holds a
    first text, each pair adds its score to the running sum and one to
    [total], and the call returns.  At the first pair with an empty item the
    call raises [IndexError], and the state keeps what the pairs before it
    added. *)
Theorem rouge_update_loop :
  forall (N : Num) (text : Type) (scorer : text -> text -> num)
         (preds targets : list (list text)),
    (forall (st1 : ROUGE1Score.state) (st2 : ROUGE2Score.state),
        Forall rouge_pair_ok (combine preds targets) ->
        ROUGE1Score.update scorer preds targets st1
        = (Return tt,
           {| ROUGE1Score.rouge1 :=
                fold_left nadd
                  (map (rouge_pair_score scorer) (combine preds targets))
                  (ROUGE1Score.rouge1 st1);
              ROUGE1Score.total :=
                Nat.iter (Nat.min (length preds) (length targets))
                  (fun t => nadd t num1) (ROUGE1Score.total st1) |}) /\
        ROUGE2Score.update scorer preds targets st2
        = (Return tt,
           {| ROUGE2Score.rouge2 :=
                fold_left nadd
                  (map (rouge_pair_score scorer) (combine preds targets))
                  (ROUGE2Score.rouge2 st2);
              ROUGE2Score.total :=
                Nat.iter (Nat.min (length preds) (length targets))
                  (fun t => nadd t num1) (ROUGE2Score.total st2) |})) /\
    (forall (pre rest : list (list text * list text)) (bad : list text * list text)
            (st1 : ROUGE1Score.state) (st2 : ROUGE2Score.state),
        combine preds targets = pre ++ bad :: rest ->
        Forall rouge_pair_ok pre ->
        fst bad = [] \/ snd bad = [] ->
        ROUGE1Score.update scorer preds targets st1
        = (Raise IndexError,
           {| ROUGE1Score.rouge1 :=
                fold_left nadd (map (rouge_pair_score scorer) pre)
                  (ROUGE1Score.rouge1 st1);
              ROUGE1Score.total :=
                Nat.iter (length pre) (fun t => nadd t num1) (ROUGE1Score.total st1) |}) /\
        ROUGE2Score.update scorer preds targets st2
        = (Raise IndexError,
           {| ROUGE2Score.rouge2 :=
                fold_left nadd (map (rouge_pair_score scorer) pre)
                  (ROUGE2Score.rouge2 st2);
              ROUGE2Score.total :=
                Nat.iter (length pre) (fun t => nadd t num1) (ROUGE2Score.total st2) |})).
Proof.
  intros N text scorer preds targets. split.
  - intros st1 st2 H. unfold ROUGE1Score.update, ROUGE2Score.update.
    rewrite rouge1_loop_ok, rouge2_loop_ok by assumption.
    now rewrite length_combine.
  - intros pre rest bad st1 st2 Hc Hpre Hbad.
    unfold ROUGE1Score.update, ROUGE2Score.update. rewrite Hc.
    rewrite rouge1_loop_stops, rouge2_loop_stops by assumption.
    now rewrite rouge1_loop_ok, rouge2_loop_ok by assumption.
Qed.

Lemma rouge_update_loop_witness :
  ROUGE1Score.update (N := F32.f32_Num) (fun _ _ : nat => F32.frac 1 2)
    [[1]; []; [3]] [[4]; [5]; [6]] ROUGE1Score.init
  = (Raise IndexError,
     @ROUGE1Score.Build_state F32.f32_Num
       (F32.add F32.zero (F32.frac 1 2)) (F32.add F32.zero F32.one)).
Proof.
  refine (proj1 (proj2 (@rouge_update_loop F32.f32_Num nat
                          (fun _ _ => F32.frac 1 2) [[1]; []; [3]] [[4]; [5]; [6]])
                   [([1], [4])] [([3], [6])] ([], [5])
                   ROUGE1Score.init ROUGE2Score.init eq_refl _ _)).
  - repeat constructor; discriminate.
  - now left.
Defined.

Lemma exact_gtb_of_nat_S (n : nat) :
  Exact.gtb (Exact.of_Z (Z.of_nat (S n))) Exact.zero = true.
Proof.
  unfold Exact.gtb, Exact.of_Z, Exact.zero.
  assert (H : (Q2Qc (inject_Z (Z.of_nat (S n))) > 0)%Qc).
  { change 0%Qc with (Q2Qc (inject_Z 0)). apply Qc_of_Z_lt. lia. }
  apply Qcgt_alt in H. now rewrite H.
Qed.

(** X7. [BLEUScore.update] scores the zipped (prediction, reference) pairs:
    the items of the longer sequence beyond the shorter one are dropped, each
    pair adds its score to [score] and one to [total].  In exact arithmetic,
    [compute] after one update from the initial state is 0 when no pair was
    scored and the sum of the pair scores divided by their number
    otherwise. *)
Theorem bleu_update_and_compute :
  (forall (N : Num) (text : Type) (sentence_bleu : text -> text -> num)
          (preds targets : list text) (st : BLEUScore.state),
      BLEUScore.update sentence_bleu preds targets st
      = {| BLEUScore.score :=
             fold_left nadd
               (map (fun pr => sentence_bleu (snd pr) (fst pr)) (combine preds targets))
               (BLEUScore.score st);
           BLEUScore.total :=
             Nat.iter (Nat.min (length preds) (length targets))
               (fun t => nadd t num1) (BLEUScore.total st) |}) /\
  (forall (text : Type) (sentence_bleu : text -> text -> @num Exact.exact_Num)
          (preds targets : list text),
      BLEUScore.compute (BLEUScore.update sentence_bleu preds targets BLEUScore.init)
      = match Nat.min (length preds) (length targets) with
        | O => Exact.zero
        | S n =>
            Exact.div
              (tsum (map (fun pr => sentence_bleu (snd pr) (fst pr))
                       (combine preds targets)))
              (Exact.of_Z (Z.of_nat (S n)))
        end).
Proof.
  split.
  - intros N text sentence_bleu preds targets st. apply bleu_update_state.
  - intros text sentence_bleu preds targets. rewrite bleu_update_state.
    unfold BLEUScore.compute. cbn [BLEUScore.score BLEUScore.total BLEUScore.init].
    change (Nat.iter (Nat.min (length preds) (length targets))
              (fun t => nadd t num1) num0)
      with (Scalar.counted (N := Exact.exact_Num)
              (Nat.min (length preds) (length targets))).
    rewrite counted_of_nat.
    destruct (Nat.min (length preds) (length targets)) as [|n]; [reflexivity|].
    change (@of_nat Exact.exact_Num (S n)) with (Exact.of_Z (Z.of_nat (S n))).
    change (@ngtb Exact.exact_Num) with Exact.gtb.
    change (@num0 Exact.exact_Num) with Exact.zero.
    now rewrite exact_gtb_of_nat_S.
Qed.

(** ** The buffers of ROCScore and F1Score *)

Section Buffers.
Context {N : Num}.
Variable sigmoid : num -> num.

Lemma threshold_binary (logits : list num) :
  Forall (fun p => p = num0 \/ p = num1) (F1Score.threshold sigmoid logits).
Proof.
  unfold F1Score.threshold. apply Forall_map, Forall_forall. intros l _.
  destruct (ngtb (sigmoid l) F1Score.half); cbn; auto.
Qed.

End Buffers.

(** X8. After the [update] calls of a list of batches from the initial
    state, the two buffers of [ROCScore] and of [F1Score] hold one entry per
    call, in call order: the targets as they came and, next to each, the
    sigmoid of the logits ([ROCScore]) or their thresholded predictions
    ([F1Score]), each of which is 0.0 or 1.0 and as many as the logits. *)
Theorem buffered_updates_lockstep :
  forall (N : Num) (sigmoid : num -> num) (batches : list (list num * list num)),
    ROCScore.y_trues (ROCScore.updates sigmoid batches ROCScore.init)
    = map snd batches /\
    ROCScore.y_scores (ROCScore.updates sigmoid batches ROCScore.init)
    = map (fun b => map sigmoid (fst b)) batches /\
    F1Score.y_trues (F1Score.updates sigmoid batches F1Score.init)
    = map snd batches /\
    F1Score.y_preds (F1Score.updates sigmoid batches F1Score.init)
    = map (fun b => F1Score.threshold sigmoid (fst b)) batches /\
    length (ROCScore.y_trues (ROCScore.updates sigmoid batches ROCScore.init))
    = length (ROCScore.y_scores (ROCScore.updates sigmoid batches ROCScore.init)) /\
    length (F1Score.y_trues (F1Score.updates sigmoid batches F1Score.init))
    = length (F1Score.y_preds (F1Score.updates sigmoid batches F1Score.init)) /\
    Forall2 (fun b preds =>
               length preds = length (fst b) /\
               Forall (fun p => p = num0 \/ p = num1) preds)
      batches (F1Score.y_preds (F1Score.updates sigmoid batches F1Score.init)).
Proof.
  intros N sigmoid batches.
  rewrite roc_updates_buffers, f1_updates_buffers.
  cbn [ROCScore.y_trues ROCScore.y_scores ROCScore.init
       F1Score.y_trues F1Score.y_preds F1Score.init app].
  repeat apply conj; try reflexivity.
  - now rewrite !length_map.
  - now rewrite !length_map.
  - induction batches as [|b batches IH]; cbn [map]; constructor; [|exact IH].
    split; [unfold F1Score.threshold; apply length_map | apply threshold_binary].
Qed.

(** X9. [compute] of [ROCScore] and of [F1Score] never lets a [ValueError]
    reach the caller, whatever the statistic and the buffers.  With an empty
    [y_trues] buffer it raises [IndexError]; with a filled one it returns 0
    when the pooling or the statistic raises [ValueError], and otherwise
    hands back what the statistic returns or raises. *)
Theorem buffered_compute_outcomes :
  forall (N : Num) (stat : list num -> list num -> outcome num)
         (roc_st : ROCScore.state) (f1_st : F1Score.state),
    ROCScore.compute stat roc_st <> Raise ValueError /\
    F1Score.compute stat f1_st <> Raise ValueError /\
    (ROCScore.y_trues roc_st = [] -> ROCScore.compute stat roc_st = Raise IndexError) /\
    (F1Score.y_trues f1_st = [] -> F1Score.compute stat f1_st = Raise IndexError) /\
    (ROCScore.y_trues roc_st <> [] ->
     ROCScore.compute stat roc_st
     = match ROCScore.y_scores roc_st with
       | [] => Return num0
       | _ :: _ =>
           match stat (concat (ROCScore.y_trues roc_st)) (concat (ROCScore.y_scores roc_st)) with
           | Raise ValueError => Return num0
           | other => other
           end
       end) /\
    (F1Score.y_trues f1_st <> [] ->
     F1Score.compute stat f1_st
     = match F1Score.y_preds f1_st with
       | [] => Return num0
       | _ :: _ =>
           match stat (concat (F1Score.y_trues f1_st)) (concat (F1Score.y_preds f1_st)) with
           | Raise ValueError => Return num0
           | other => other
           end
       end).
Proof.
  intros N stat [rt rs] [ft fp].
  unfold ROCScore.compute, F1Score.compute.
  cbn [ROCScore.y_trues ROCScore.y_scores F1Score.y_trues F1Score.y_preds].
  repeat apply conj.
  - destruct rt as [|t rt]; [discriminate|].
    destruct rs as [|s rs]; [discriminate|].
    cbn. destruct (stat _ _) as [v|[]]; discriminate.
  - destruct ft as [|t ft]; [discriminate|].
    destruct fp as [|s fp]; [discriminate|].
    cbn. destruct (stat _ _) as [v|[]]; discriminate.
  - now intros ->.
  - now intros ->.
  - intros H. destruct rt as [|t rt]; [congruence|].
    destruct rs as [|s rs]; [reflexivity|].
    cbn. destruct (stat _ _) as [v|[]]; reflexivity.
  - intros H. destruct ft as [|t ft]; [congruence|].
    destruct fp as [|s fp]; [reflexivity|].
    cbn. destruct (stat _ _) as [v|[]]; reflexivity.
Qed.

Lemma buffered_compute_outcomes_witness :
  F1Score.compute Sklm.f1_score Scenario.f1_state = Return F32.one.
Proof.
  assert (H : F1Score.y_trues Scenario.f1_state <> []) by discriminate.
  exact (proj2 (proj2 (proj2 (proj2 (proj2
           (@buffered_compute_outcomes F32.f32_Num Sklm.f1_score
              ROCScore.init Scenario.f1_state))))) H).
Defined.

(** * Properties of the training utilities *)

Module M3aeUtilsFacts.
Import String.
#[local] Open Scope list_scope.
#[local] Open Scope string_scope.
Import M3aeUtils.

Section WithNum.
Context {N : Num} {P : Type}.

Lemma lookup_bind_attr (name name' : string) (m : metric)
    (attrs : list (string * metric)) :
  lookup name (bind_attr name' m attrs)
  = if name' =? name then Some m else lookup name attrs.
Proof.
  induction attrs as [|[n x] attrs IH]; cbn [bind_attr lookup].
  - reflexivity.
  - destruct (n =? name') eqn:E1; cbn [lookup].
    + apply String.eqb_eq in E1. subst n.
      now destruct (name' =? name).
    + rewrite IH. destruct (n =? name) eqn:E2; [|reflexivity].
      apply String.eqb_eq in E2. subst n. now rewrite String.eqb_sym, E1.
Qed.

Lemma getattr_setattr (name name' : string) (m : metric) (pl : pl_module P) :
  getattr (setattr name' m pl) name
  = if name' =? name then Some m else getattr pl name.
Proof. apply lookup_bind_attr. Qed.


Lemma set_metrics_item_hparams (split : string) (item : string * Z) (pl : pl_module P) :
  hparams (snd (set_metrics_item split item pl)) = hparams pl.
Proof.
  unfold set_metrics_item. destruct item as [k v].
  destruct (v <=? 0)%Z; [reflexivity|].
  destruct (k =? "vqa").
  - unfold set_vqa. now destruct (split =? "train").
  - destruct (k =? "cls"); [|reflexivity].
    unfold set_cls. now destruct (split =? "train").
Qed.

Lemma set_metrics_items (split : string) (items : list (string * Z)) (pl : pl_module P) :
  fst (for_each (set_metrics_item split) items pl)
  = (if existsb unknown items then Some (Exception ValueError) else None) /\
  hparams (snd (for_each (set_metrics_item split) items pl)) = hparams pl.
Proof.
  revert pl. induction items as [|item items IH]; intros pl; cbn [for_each existsb].
  - split; reflexivity.
  - pose proof (set_metrics_item_hparams split item pl) as Hh.
    destruct (set_metrics_item split item pl) as [[f|] pl'] eqn:E; cbn [snd] in Hh.
    + unfold set_metrics_item in E. destruct item as [k v].
      unfold unknown, active. cbn [fst snd].
      destruct (v <=? 0)%Z eqn:Ev; [discriminate|].
      destruct (k =? "vqa"); [discriminate|].
      destruct (k =? "cls"); [discriminate|].
      injection E as <- <-.
      assert ((0 <? v)%Z = true) as -> by (apply Z.ltb_lt; apply Z.leb_gt in Ev; lia).
      split; reflexivity.
    + destruct (IH pl') as [IH1 IH2]. rewrite IH1, IH2, Hh.
      assert (Hu : unknown item = false).
      { unfold set_metrics_item in E. destruct item as [k v].
        unfold unknown, active. cbn [fst snd].
        destruct (v <=? 0)%Z eqn:Ev.
        - apply Z.leb_le in Ev.
          assert ((0 <? v)%Z = false) as -> by (apply Z.ltb_ge; lia). reflexivity.
        - destruct (k =? "vqa"); [now rewrite andb_false_r|].
          destruct (k =? "cls"); [now rewrite andb_false_r|]. discriminate. }
      rewrite Hu. split; reflexivity.
Qed.

Lemma set_metrics_outcome (pl : pl_module P) :
  fst (set_metrics pl)
  = if existsb unknown (loss_names (hparams pl))
    then Some (Exception ValueError) else None.
Proof.
  unfold set_metrics, splits. cbn [for_each].
  destruct (set_metrics_items "train" (loss_names (hparams pl)) pl) as [H1 Hh1].
  destruct (for_each (set_metrics_item "train") _ pl) as [[f|] pl1]; cbn [fst snd] in *.
  - exact H1.
  - destruct (set_metrics_items "val" (loss_names (hparams pl1)) pl1) as [H2 Hh2].
    destruct (for_each (set_metrics_item "val") _ pl1) as [[f|] pl2]; cbn [fst snd] in *.
    + now rewrite Hh1 in H2.
    + destruct (set_metrics_items "test" (loss_names (hparams pl2)) pl2) as [H3 Hh3].
      destruct (for_each (set_metrics_item "test") _ pl2) as [[f|] pl3];
        cbn [fst snd] in *; [|exact H1].
      now rewrite Hh2, Hh1 in H3.
Qed.

(** *** epoch_wrapup *)

Lemma getattr_log (key : string) (v : num) (pl : pl_module P) (name : string) :
  getattr (log key v pl) name = getattr pl name.
Proof. reflexivity. Qed.

Lemma log_method_ok (key name method : string)
    (call : metric -> option (num * metric)) (pl : pl_module P)
    (m m' : metric) (v : num) :
  getattr pl name = Some m ->
  call m = Some (v, m') ->
  log_method key name method call pl = (None, log key v (setattr name m' pl)).
Proof.
  intros Hg Hc. unfold log_method, call_method. now rewrite Hg, Hc.
Qed.

Lemma reset_attr_ok (name : string) (pl : pl_module P) (m : metric) :
  getattr pl name = Some m ->
  reset_attr name pl = (None, setattr name (reset m) pl).
Proof. intros Hg. unfold reset_attr. now rewrite Hg. Qed.


Lemma epoch_wrapup_item_skip (phase : string) (item : string * Z) (pl : pl_module P) :
  wrapped item = false -> epoch_wrapup_item phase item pl = (None, pl).
Proof.
  unfold wrapped, active, epoch_wrapup_item. destruct item as [k v]. cbn [fst snd].
  destruct (v <=? 0)%Z eqn:Ev; [reflexivity|].
  assert ((0 <? v)%Z = true) as -> by (apply Z.ltb_lt; apply Z.leb_gt in Ev; lia).
  cbn [andb]. now intros ->.
Qed.

Lemma for_each_skip (phase : string) (items : list (string * Z)) (pl : pl_module P) :
  existsb wrapped items = false ->
  for_each (epoch_wrapup_item phase) items pl = (None, pl).
Proof.
  induction items as [|item items IH]; cbn [for_each existsb]; [reflexivity|].
  intros H. apply orb_false_iff in H as [H1 H2].
  now rewrite epoch_wrapup_item_skip, IH.
Qed.

Lemma append_eqb_l (p a b : string) : (p ++ a =? p ++ b) = (a =? b).
Proof.
  induction p as [|c p IH]; [reflexivity|].
  cbn [append String.eqb]. now rewrite Ascii.eqb_refl.
Qed.

Lemma getattr_setattr_same (name : string) (m : metric) (pl : pl_module P) :
  getattr (setattr name m pl) name = Some m.
Proof. now rewrite getattr_setattr, String.eqb_refl. Qed.

Lemma getattr_setattr_suffix (p a b : string) (m : metric) (pl : pl_module P) :
  (a =? b) = false ->
  getattr (setattr (p ++ a) m pl) (p ++ b) = getattr pl (p ++ b).
Proof. intros H. now rewrite getattr_setattr, append_eqb_l, H. Qed.

Lemma logged_setattr (name : string) (m : metric) (pl : pl_module P) :
  logged (setattr name m pl) = logged pl.
Proof. reflexivity. Qed.

Lemma logged_log (key : string) (v : num) (pl : pl_module P) :
  logged (log key v pl) = (logged pl ++ [(key, v)])%list.
Proof. reflexivity. Qed.

Ltac getattr_fact :=
  repeat first
    [ rewrite getattr_log
    | rewrite getattr_setattr_same
    | rewrite getattr_setattr_suffix by reflexivity ];
  first [ eassumption | reflexivity ].

Ltac wrapup_step :=
  first
    [ erewrite log_method_ok; [ | getattr_fact | reflexivity ]
    | erewrite reset_attr_ok; [ | getattr_fact ] ];
  cbv iota beta.

Lemma epoch_wrapup_item_vqa (phase : string) (v : Z) (pl : pl_module P)
    (s : VQARADScore.state) (l r1 r2 b : metric) :
  (0 < v)%Z ->
  getattr pl (phase ++ "_vqa_score") = Some (VQARADScoreMetric s) ->
  getattr pl (phase ++ "_vqa_loss") = Some l ->
  getattr pl (phase ++ "_vqa_rouge1") = Some r1 ->
  getattr pl (phase ++ "_vqa_rouge2") = Some r2 ->
  getattr pl (phase ++ "_vqa_bleu_score") = Some b ->
  exists pl',
    epoch_wrapup_item phase ("vqa", v) pl = (None, pl') /\
    logged pl'
    = List.app (logged pl)
         [("vqa/" ++ phase ++ "/score_epoch", VQARADScore.compute s);
           ("vqa/" ++ phase ++ "/score_best_epoch",
            fst (VQARADScore.get_best_score s));
           ("vqa/" ++ phase ++ "/close_score_best_epoch",
            VQARADScore.best_close_score (snd (VQARADScore.get_best_score s)));
           ("vqa/" ++ phase ++ "/open_score_best_epoch",
            VQARADScore.best_open_score (snd (VQARADScore.get_best_score s)));
           ("vqa/" ++ phase ++ "/loss_epoch", compute l);
           (phase ++ "/rouge1", compute r1);
           (phase ++ "/rouge2", compute r2);
           (phase ++ "/bleu_score", compute b)] /\
    getattr pl' (phase ++ "_vqa_score")
    = Some (VQARADScoreMetric
              (VQARADScore.reset (snd (VQARADScore.get_best_score s)))) /\
    getattr pl' (phase ++ "_vqa_loss") = Some (reset l) /\
    getattr pl' (phase ++ "_vqa_rouge1") = Some (reset r1) /\
    getattr pl' (phase ++ "_vqa_rouge2") = Some (reset r2) /\
    getattr pl' (phase ++ "_vqa_bleu_score") = Some (reset b) /\
    (forall name : string,
        name <> phase ++ "_vqa_score" -> name <> phase ++ "_vqa_loss" ->
        name <> phase ++ "_vqa_rouge1" -> name <> phase ++ "_vqa_rouge2" ->
        name <> phase ++ "_vqa_bleu_score" ->
        getattr pl' name = getattr pl name) /\
    hparams pl' = hparams pl /\ training pl' = training pl.
Proof.
  intros Hv Hs Hl H1 H2 Hb.
  unfold epoch_wrapup_item.
  assert ((v <=? 0)%Z = false) as -> by (apply Z.leb_gt; lia).
  cbn [String.eqb Ascii.eqb Bool.eqb].
  change (phase ++ "_" ++ "vqa" ++ "_score") with (phase ++ "_vqa_score").
  change (phase ++ "_" ++ "vqa" ++ "_loss") with (phase ++ "_vqa_loss").
  cbn [for_each].
  change (phase ++ "_" ++ "vqa" ++ "_" ++ "rouge1") with (phase ++ "_vqa_rouge1").
  change (phase ++ "_" ++ "vqa" ++ "_" ++ "rouge2") with (phase ++ "_vqa_rouge2").
  change (phase ++ "_" ++ "vqa" ++ "_" ++ "bleu_score") with (phase ++ "_vqa_bleu_score").
  unfold and_then.
  do 13 wrapup_step.
  eexists. split; [reflexivity|].
  repeat apply conj.
  - rewrite ?logged_setattr, ?logged_log, ?logged_setattr.
    repeat (rewrite ?logged_setattr; rewrite ?logged_log).
    rewrite <- !app_assoc. reflexivity.
  - getattr_fact.
  - getattr_fact.
  - getattr_fact.
  - getattr_fact.
  - getattr_fact.
  - intros name Hn1 Hn2 Hn3 Hn4 Hn5.
    apply String.eqb_neq in Hn1, Hn2, Hn3, Hn4, Hn5.
    rewrite String.eqb_sym in Hn1, Hn2, Hn3, Hn4, Hn5.
    repeat first [ rewrite getattr_log | rewrite getattr_setattr ].
    now rewrite ?Hn1, ?Hn2, ?Hn3, ?Hn4, ?Hn5.
  - reflexivity.
  - reflexivity.
Qed.

Lemma for_each_app {A S : Type} (body : A -> S -> option failure * S)
    (xs ys : list A) (s : S) :
  for_each body (xs ++ ys)%list s
  = match for_each body xs s with
    | (None, s') => for_each body ys s'
    | (Some f, s') => (Some f, s')
    end.
Proof.
  revert s. induction xs as [|x xs IH]; intros s; cbn [app for_each].
  - reflexivity.
  - destruct (body x s) as [[f|] s']; [reflexivity|apply IH].
Qed.


Lemma phase_cases (pl : pl_module P) (test : bool) :
  phase_of pl test = "train" \/ phase_of pl test = "val" \/ phase_of pl test = "test".
Proof. unfold phase_of. destruct test, (training pl); auto. Qed.

Ltac other_names :=
  match goal with
  | H : forall name : string, _ |- _ =>
      rewrite H by (intros Hn; discriminate Hn)
  end.

Lemma epoch_wrapup_item_ready (phase : string) (item : string * Z) (pl : pl_module P) :
  phase = "train" \/ phase = "val" \/ phase = "test" ->
  ready pl ->
  fst (epoch_wrapup_item phase item pl) = None /\
  ready (snd (epoch_wrapup_item phase item pl)) /\
  hparams (snd (epoch_wrapup_item phase item pl)) = hparams pl.
Proof.
  intros Hphase Hready.
  destruct (wrapped item) eqn:Hw.
  2:{ rewrite epoch_wrapup_item_skip by assumption. auto. }
  destruct item as [k v]. unfold wrapped, active in Hw. cbn [fst snd] in Hw.
  apply andb_true_iff in Hw as [Hv Hk].
  apply Z.ltb_lt in Hv. apply String.eqb_eq in Hk. subst k.
  assert (Hhas : has_metrics phase pl).
  { destruct Hready as (Ht & Hv' & Hte).
    destruct Hphase as [->|[->| ->]]; assumption. }
  destruct Hhas as ((s & Hs) & (l & Hl) & (r1 & H1) & (r2 & H2) & (b & Hb)).
  destruct (epoch_wrapup_item_vqa phase pl Hv Hs Hl H1 H2 Hb)
    as (pl' & -> & _ & Gs & Gl & G1 & G2 & Gb & Gother & Hh & _).
  cbn [fst snd]. split; [reflexivity|]. split; [|exact Hh].
  destruct Hready as (Rt & Rv & Rte).
  unfold ready, has_metrics in *.
  destruct Rt as ((? & Rt1) & (? & Rt2) & (? & Rt3) & (? & Rt4) & (? & Rt5)).
  destruct Rv as ((? & Rv1) & (? & Rv2) & (? & Rv3) & (? & Rv4) & (? & Rv5)).
  destruct Rte as ((? & Re1) & (? & Re2) & (? & Re3) & (? & Re4) & (? & Re5)).
  destruct Hphase as [->|[->| ->]];
    repeat apply conj;
    first [ eexists; eassumption
          | other_names; eexists; eassumption ].
Qed.

Lemma epoch_wrapup_ready (pl : pl_module P) (test : bool) :
  ready pl ->
  fst (epoch_wrapup pl test) = None /\ ready (snd (epoch_wrapup pl test)) /\
  hparams (snd (epoch_wrapup pl test)) = hparams pl.
Proof.
  unfold epoch_wrapup. pose proof (phase_cases pl test) as Hphase.
  generalize (phase_of pl test) Hphase. intros phase Hp.
  generalize (loss_names (hparams pl)) as items. intros items.
  assert (H : forall pl0 : pl_module P, ready pl0 ->
            fst (for_each (epoch_wrapup_item phase) items pl0) = None /\
            ready (snd (for_each (epoch_wrapup_item phase) items pl0)) /\
            hparams (snd (for_each (epoch_wrapup_item phase) items pl0))
            = hparams pl0).
  { induction items as [|item items IH]; intros pl0 Hr; cbn [for_each].
    - auto.
    - destruct (epoch_wrapup_item_ready item Hp Hr) as (H1 & H2 & H3).
      destruct (epoch_wrapup_item phase item pl0) as [[f|] pl1]; cbn [fst snd] in *;
        [discriminate|].
      destruct (IH pl1 H2) as (I1 & I2 & I3). rewrite I3, H3. auto. }
  apply H.
Qed.

(** *** set_metrics attaches what epoch_wrapup needs *)

Ltac solve_has_metrics :=
  unfold has_metrics in *;
  repeat match goal with
         | H : _ /\ _ |- _ => destruct H
         | H : exists _, _ |- _ => destruct H
         end;
  rewrite ?getattr_setattr; cbn [String.eqb Ascii.eqb Bool.eqb append];
  repeat apply conj; eexists; first [ reflexivity | eassumption ].

Lemma set_metrics_item_preserves (phase split : string) (item : string * Z)
    (pl : pl_module P) :
  phase = "train" \/ phase = "val" \/ phase = "test" ->
  has_metrics phase pl ->
  has_metrics phase (snd (set_metrics_item split item pl)).
Proof.
  intros Hphase H. unfold set_metrics_item. destruct item as [k v].
  destruct (v <=? 0)%Z; [exact H|].
  destruct (k =? "vqa") eqn:Ek.
  - apply String.eqb_eq in Ek. subst k. cbn [snd]. unfold set_vqa.
    destruct (split =? "train"); destruct Hphase as [->|[->| ->]];
      solve_has_metrics.
  - destruct (k =? "cls") eqn:Ec; [|exact H].
    apply String.eqb_eq in Ec. subst k. cbn [snd]. unfold set_cls.
    destruct (split =? "train"); destruct Hphase as [->|[->| ->]];
      solve_has_metrics.
Qed.

Lemma set_metrics_item_establishes (split : string) (v : Z) (pl : pl_module P) :
  (0 < v)%Z ->
  (split = "train" ->
   has_metrics "train" (snd (set_metrics_item split ("vqa", v) pl))) /\
  (split <> "train" ->
   has_metrics "val" (snd (set_metrics_item split ("vqa", v) pl)) /\
   has_metrics "test" (snd (set_metrics_item split ("vqa", v) pl))).
Proof.
  intros Hv. unfold set_metrics_item.
  assert ((v <=? 0)%Z = false) as -> by (apply Z.leb_gt; lia).
  cbn [String.eqb Ascii.eqb Bool.eqb snd]. unfold set_vqa. split.
  - intros ->. cbn [String.eqb Ascii.eqb Bool.eqb]. solve_has_metrics.
  - intros Hs. apply String.eqb_neq in Hs. rewrite Hs.
    split; solve_has_metrics.
Qed.

Lemma pass_preserves (phase split : string) (items : list (string * Z))
    (pl : pl_module P) :
  phase = "train" \/ phase = "val" \/ phase = "test" ->
  has_metrics phase pl ->
  has_metrics phase (snd (for_each (set_metrics_item split) items pl)).
Proof.
  intros Hphase. revert pl.
  induction items as [|item items IH]; intros pl H; cbn [for_each]; [exact H|].
  pose proof (set_metrics_item_preserves split item Hphase H) as H'.
  destruct (set_metrics_item split item pl) as [[f|] pl']; cbn [snd] in *;
    [exact H'|now apply IH].
Qed.

Lemma pass_establishes (split : string) (items : list (string * Z))
    (pl : pl_module P) :
  existsb wrapped items = true ->
  fst (for_each (set_metrics_item split) items pl) = None ->
  (split = "train" ->
   has_metrics "train" (snd (for_each (set_metrics_item split) items pl))) /\
  (split <> "train" ->
   has_metrics "val" (snd (for_each (set_metrics_item split) items pl)) /\
   has_metrics "test" (snd (for_each (set_metrics_item split) items pl))).
Proof.
  revert pl. induction items as [|item items IH]; intros pl Hex Hok;
    cbn [existsb for_each] in *; [discriminate|].
  destruct (wrapped item) eqn:Hw.
  - destruct item as [k v]. unfold wrapped, active in Hw. cbn [fst snd] in Hw.
    apply andb_true_iff in Hw as [Hv Hk].
    apply Z.ltb_lt in Hv. apply String.eqb_eq in Hk. subst k.
    destruct (set_metrics_item_establishes split pl Hv) as [Ht Hvt].
    destruct (set_metrics_item split ("vqa", v) pl) as [[f|] pl'];
      cbn [fst snd] in *; [discriminate|].
    split.
    + intros Hs. apply pass_preserves; auto.
    + intros Hs. destruct (Hvt Hs). split; apply pass_preserves; auto.
  - cbn [orb] in Hex.
    destruct (set_metrics_item split item pl) as [[f|] pl'];
      cbn [fst snd] in *; [discriminate|].
    now apply IH.
Qed.

Lemma set_metrics_hparams (pl : pl_module P) :
  hparams (snd (set_metrics pl)) = hparams pl.
Proof.
  unfold set_metrics, splits. cbn [for_each].
  destruct (set_metrics_items "train" (loss_names (hparams pl)) pl) as [_ Hh1].
  destruct (for_each (set_metrics_item "train") _ pl) as [[f|] pl1];
    cbn [fst snd] in *; [exact Hh1|].
  destruct (set_metrics_items "val" (loss_names (hparams pl1)) pl1) as [_ Hh2].
  destruct (for_each (set_metrics_item "val") _ pl1) as [[f|] pl2];
    cbn [fst snd] in *; [congruence|].
  destruct (set_metrics_items "test" (loss_names (hparams pl2)) pl2) as [_ Hh3].
  destruct (for_each (set_metrics_item "test") _ pl2) as [[f|] pl3];
    cbn [fst snd] in *; congruence.
Qed.

Lemma set_metrics_ready (pl : pl_module P) :
  existsb wrapped (loss_names (hparams pl)) = true ->
  fst (set_metrics pl) = None ->
  ready (snd (set_metrics pl)).
Proof.
  intros Hex. unfold set_metrics, splits. cbn [for_each].
  pose proof (@pass_establishes "train" (loss_names (hparams pl)) pl Hex) as E1.
  destruct (set_metrics_items "train" (loss_names (hparams pl)) pl) as [_ Hh1].
  destruct (for_each (set_metrics_item "train") _ pl) as [[f|] pl1];
    cbn [fst snd] in *; [discriminate|].
  destruct (E1 eq_refl) as [Ht _]. specialize (Ht eq_refl).
  rewrite Hh1.
  pose proof (@pass_establishes "val" (loss_names (hparams pl)) pl1 Hex) as E2.
  pose proof (@pass_preserves "train" "val" (loss_names (hparams pl)) pl1
                (or_introl eq_refl) Ht) as P2.
  destruct (set_metrics_items "val" (loss_names (hparams pl)) pl1) as [_ Hh2].
  destruct (for_each (set_metrics_item "val") _ pl1) as [[f|] pl2];
    cbn [fst snd] in *; [discriminate|].
  destruct (E2 eq_refl) as [_ Hvt].
  destruct Hvt as [Hv Hte]; [discriminate|].
  rewrite Hh2, Hh1. intros Hok.
  pose proof (@pass_preserves "train" "test" (loss_names (hparams pl)) pl2
                (or_introl eq_refl) P2) as Q1.
  pose proof (@pass_preserves "val" "test" (loss_names (hparams pl)) pl2
                (or_intror (or_introl eq_refl)) Hv) as Q2.
  pose proof (@pass_preserves "test" "test" (loss_names (hparams pl)) pl2
                (or_intror (or_intror eq_refl)) Hte) as Q3.
  destruct (for_each (set_metrics_item "test") _ pl2) as [[f|] pl3];
    cbn [fst snd] in *; [discriminate|].
  split; [exact Q1|]. split; [exact Q2|exact Q3].
Qed.

(** *** set_task *)

Lemma unknown_tasks (items : list (string * Z)) :
  existsb unknown items = false <->
  (forall k, In k (map fst (filter active items)) -> k = "vqa" \/ k = "cls").
Proof.
  induction items as [|[k v] items IH]; cbn [existsb filter map].
  - split; [intros _ k []|reflexivity].
  - unfold unknown at 1. cbn [fst]. destruct (active (k, v)) eqn:Ea; cbn [andb map].
    + split.
      * intros H. apply orb_false_iff in H as [H1 H2].
        intros k' [<-|Hin]; [|now apply IH].
        destruct (k =? "vqa") eqn:E1; [left; now apply String.eqb_eq|].
        destruct (k =? "cls") eqn:E2; [right; now apply String.eqb_eq|].
        discriminate.
      * intros H. apply orb_false_iff. split.
        -- destruct (H k (or_introl eq_refl)) as [->| ->]; reflexivity.
        -- apply IH. intros k' Hin. apply H. now right.
    + exact IH.
Qed.

(** *** epoch_wrapup on a module without the score metric *)

Lemma epoch_wrapup_item_missing (phase : string) (v : Z) (pl : pl_module P) :
  (0 < v)%Z ->
  getattr pl (phase ++ "_vqa_score") = None ->
  epoch_wrapup_item phase ("vqa", v) pl
  = (Some (AttributeError (phase ++ "_vqa_score")), pl).
Proof.
  intros Hv Hs. unfold epoch_wrapup_item.
  assert ((v <=? 0)%Z = false) as -> by (apply Z.leb_gt; lia).
  cbn [String.eqb Ascii.eqb Bool.eqb].
  change (phase ++ "_" ++ "vqa" ++ "_score") with (phase ++ "_vqa_score").
  unfold and_then at 1. unfold log_method at 1, call_method. now rewrite Hs.
Qed.

(** *** The parameter groups *)

Lemma filter_disjoint_app {A : Type} (f g : A -> bool) (l : list A) :
  (forall x, f x && g x = false) ->
  Permutation (filter f l ++ filter g l)%list (filter (fun x => f x || g x) l).
Proof.
  intros Hd. induction l as [|a l IH]; [constructor|].
  cbn [filter]. specialize (Hd a).
  destruct (f a), (g a); cbn [orb app]; try discriminate.
  - now constructor.
  - apply Permutation_sym, Permutation_cons_app, Permutation_sym, IH.
  - exact IH.
Qed.

Lemma select_params_app (f g : string -> bool) (named : list (string * P)) :
  (forall n, f n && g n = false) ->
  Permutation (select_params f named ++ select_params g named)%list
    (select_params (fun n => f n || g n) named).
Proof.
  intros Hd. unfold select_params. rewrite <- map_app.
  apply Permutation_map.
  apply (filter_disjoint_app (fun np => f (fst np)) (fun np => g (fst np))).
  intros x. apply Hd.
Qed.

Lemma select_params_ext (f g : string -> bool) (named : list (string * P)) :
  (forall n, f n = g n) -> select_params f named = select_params g named.
Proof.
  intros H. unfold select_params. f_equal. apply filter_ext. intros x. apply H.
Qed.

Lemma groups_partition (pl : pl_module P) :
  Permutation
    (List.concat (map (@params N P) (optimizer_grouped_parameters pl)))
    (select_params (fun n => negb (head_and_multi_modal n)) (named_parameters pl)).
Proof.
  unfold optimizer_grouped_parameters. cbn [map List.concat params].
  rewrite app_nil_r.
  set (d := any_in no_decay). set (h := any_in head_names).
  set (m := any_in multi_modal_names). set (named := named_parameters pl).
  rewrite (select_params_ext (fun n => negb (head_and_multi_modal n))
             (fun n => (negb (d n) && negb (h n) && negb (m n))
                       || ((d n && negb (h n) && negb (m n))
                           || ((negb (d n) && h n && negb (m n))
                               || ((d n && h n && negb (m n))
                                   || ((negb (d n) && negb (h n) && m n)
                                       || (d n && negb (h n) && m n)))))) named).
  2:{ intros n. unfold head_and_multi_modal. fold (h n) (m n).
      destruct (d n), (h n), (m n); reflexivity. }
  repeat (etransitivity;
          [ apply Permutation_app_head
          | apply select_params_app; intros n; destruct (d n), (h n), (m n);
            reflexivity ]).
  reflexivity.
Qed.

End WithNum.

(** X10. [set_metrics] raises [ValueError] exactly when a loss name with a
    positive weight is neither ["vqa"] nor ["cls"], that is when the task
    list of [set_task] holds another name; loss names with a weight of zero
    or less are skipped whatever they are.  The configuration is left as it
    was. *)
Theorem set_metrics_outcome_and_tasks :
  forall (N : Num) (P : Type) (pl : pl_module P),
    fst (set_metrics pl)
    = (if existsb unknown (loss_names (hparams pl))
       then Some (Exception ValueError) else None) /\
    (fst (set_metrics pl) = None <->
     forall k, In k (current_tasks (set_task pl)) -> k = "vqa" \/ k = "cls") /\
    hparams (snd (set_metrics pl)) = hparams pl.
Proof.
  intros N P pl. split; [apply set_metrics_outcome|]. split.
  - rewrite set_metrics_outcome. cbn [set_task current_tasks].
    rewrite <- unknown_tasks.
    destruct (existsb unknown (loss_names (hparams pl))); split; congruence.
  - apply set_metrics_hparams.
Qed.

Lemma set_metrics_outcome_and_tasks_witness :
  fst (set_metrics scenario_module) = None.
Proof.
  apply (proj2 (proj1 (proj2 (@set_metrics_outcome_and_tasks F32.f32_Num nat
                                scenario_module)))).
  intros k [<-|[<-|[]]]; auto.
Defined.

(** X11. When [set_metrics] returns, every later [epoch_wrapup] finds the
    metrics it reads: if ["vqa"] has a positive weight, the score, loss,
    ROUGE-1, ROUGE-2 and BLEU metrics of the three phases are attached, the
    score metric being a [VQARADScore]; [epoch_wrapup] raises nothing on a
    module with these metrics and leaves them attached, so that it can be
    called epoch after epoch, in any phase. *)
Theorem set_metrics_prepares_epoch_wrapup :
  forall (N : Num) (P : Type),
    (forall pl : pl_module P,
        fst (set_metrics pl) = None ->
        existsb wrapped (loss_names (hparams pl)) = true ->
        ready (snd (set_metrics pl))) /\
    (forall (pl : pl_module P) (test : bool),
        ready pl ->
        fst (epoch_wrapup pl test) = None /\
        ready (snd (epoch_wrapup pl test)) /\
        hparams (snd (epoch_wrapup pl test)) = hparams pl) /\
    (forall (pl : pl_module P) (test : bool),
        fst (set_metrics pl) = None ->
        fst (epoch_wrapup (snd (set_metrics pl)) test) = None).
Proof.
  intros N P. repeat apply conj.
  - intros pl Hok Hex. now apply set_metrics_ready.
  - intros pl test. apply epoch_wrapup_ready.
  - intros pl test Hok.
    destruct (existsb wrapped (loss_names (hparams pl))) eqn:Hex.
    + apply epoch_wrapup_ready. now apply set_metrics_ready.
    + unfold epoch_wrapup. rewrite set_metrics_hparams.
      now rewrite for_each_skip.
Qed.

Lemma set_metrics_prepares_epoch_wrapup_witness :
  ready scenario_ready /\
  fst (epoch_wrapup scenario_ready true) = None.
Proof.
  assert (Hok : fst (set_metrics scenario_module) = None) by reflexivity.
  assert (Hex : existsb wrapped (loss_names (hparams scenario_module)) = true)
    by reflexivity.
  pose proof (@set_metrics_prepares_epoch_wrapup F32.f32_Num nat) as (H1 & H2 & _).
  pose proof (H1 scenario_module Hok Hex) as Hr.
  split; [exact Hr|]. exact (proj1 (H2 scenario_ready true Hr)).
Defined.

(** X12. Without a loss name ["vqa"] of positive weight [epoch_wrapup] does
    nothing at all: no metric is computed, logged or reset, in particular
    none of the accuracy and loss metrics that [set_metrics] attaches for
    ["cls"]. *)
Theorem epoch_wrapup_without_vqa :
  forall (N : Num) (P : Type) (pl : pl_module P) (test : bool),
    existsb wrapped (loss_names (hparams pl)) = false ->
    epoch_wrapup pl test = (None, pl).
Proof.
  intros N P pl test H. unfold epoch_wrapup. now apply for_each_skip.
Qed.

Lemma epoch_wrapup_without_vqa_witness :
  epoch_wrapup (snd (set_metrics scenario_cls)) false
  = (None, snd (set_metrics scenario_cls)).
Proof.
  apply epoch_wrapup_without_vqa. reflexivity.
Defined.

(** X13. On a module on which the score metric of the phase is not
    attached, [epoch_wrapup] raises [AttributeError] for that attribute at
    the first loss name ["vqa"] of positive weight, before anything is logged
    or reset. *)
Theorem epoch_wrapup_missing_metric :
  forall (N : Num) (P : Type) (pl : pl_module P) (test : bool)
         (before after : list (string * Z)) (v : Z),
    loss_names (hparams pl) = (before ++ ("vqa", v) :: after)%list ->
    existsb wrapped before = false ->
    (0 < v)%Z ->
    getattr pl (phase_of pl test ++ "_vqa_score") = None ->
    epoch_wrapup pl test
    = (Some (AttributeError (phase_of pl test ++ "_vqa_score")), pl).
Proof.
  intros N P pl test before after v Hitems Hbefore Hv Hs.
  unfold epoch_wrapup. rewrite Hitems, for_each_app, for_each_skip by assumption.
  cbn [for_each]. now rewrite epoch_wrapup_item_missing.
Qed.

Lemma epoch_wrapup_missing_metric_witness :
  epoch_wrapup scenario_module false
  = (Some (AttributeError "val_vqa_score"), scenario_module).
Proof.
  apply (@epoch_wrapup_missing_metric F32.f32_Num nat scenario_module false
           [("mlm", 0%Z)] [("cls", 1%Z)] 1%Z); try reflexivity.
Defined.

(** X14. With one loss name ["vqa"] of positive weight and the five metrics
    of the phase attached, [epoch_wrapup] returns after eight [log] calls, in
    this order: the score, the best score, the best close and open scores
    (read after the best score was brought up to date), the loss, ROUGE-1,
    ROUGE-2 and BLEU; it leaves each of the five metrics reset, the score
    metric keeping the watermark that [get_best_score] left, and every other
    attribute as it was. *)
Theorem epoch_wrapup_vqa_effect :
  forall (N : Num) (P : Type) (pl : pl_module P) (test : bool)
         (before after : list (string * Z)) (v : Z)
         (s : VQARADScore.state) (l r1 r2 b : metric),
    loss_names (hparams pl) = (before ++ ("vqa", v) :: after)%list ->
    existsb wrapped before = false ->
    existsb wrapped after = false ->
    (0 < v)%Z ->
    getattr pl (phase_of pl test ++ "_vqa_score") = Some (VQARADScoreMetric s) ->
    getattr pl (phase_of pl test ++ "_vqa_loss") = Some l ->
    getattr pl (phase_of pl test ++ "_vqa_rouge1") = Some r1 ->
    getattr pl (phase_of pl test ++ "_vqa_rouge2") = Some r2 ->
    getattr pl (phase_of pl test ++ "_vqa_bleu_score") = Some b ->
    exists pl' : pl_module P,
      epoch_wrapup pl test = (None, pl') /\
      logged pl'
      = List.app (logged pl)
          [("vqa/" ++ phase_of pl test ++ "/score_epoch", VQARADScore.compute s);
           ("vqa/" ++ phase_of pl test ++ "/score_best_epoch",
            fst (VQARADScore.get_best_score s));
           ("vqa/" ++ phase_of pl test ++ "/close_score_best_epoch",
            VQARADScore.best_close_score (snd (VQARADScore.get_best_score s)));
           ("vqa/" ++ phase_of pl test ++ "/open_score_best_epoch",
            VQARADScore.best_open_score (snd (VQARADScore.get_best_score s)));
           ("vqa/" ++ phase_of pl test ++ "/loss_epoch", compute l);
           (phase_of pl test ++ "/rouge1", compute r1);
           (phase_of pl test ++ "/rouge2", compute r2);
           (phase_of pl test ++ "/bleu_score", compute b)] /\
      getattr pl' (phase_of pl test ++ "_vqa_score")
      = Some (VQARADScoreMetric
                (VQARADScore.reset (snd (VQARADScore.get_best_score s)))) /\
      getattr pl' (phase_of pl test ++ "_vqa_loss") = Some (reset l) /\
      getattr pl' (phase_of pl test ++ "_vqa_rouge1") = Some (reset r1) /\
      getattr pl' (phase_of pl test ++ "_vqa_rouge2") = Some (reset r2) /\
      getattr pl' (phase_of pl test ++ "_vqa_bleu_score") = Some (reset b) /\
      (forall name : string,
          name <> phase_of pl test ++ "_vqa_score" ->
          name <> phase_of pl test ++ "_vqa_loss" ->
          name <> phase_of pl test ++ "_vqa_rouge1" ->
          name <> phase_of pl test ++ "_vqa_rouge2" ->
          name <> phase_of pl test ++ "_vqa_bleu_score" ->
          getattr pl' name = getattr pl name).
Proof.
  intros N P pl test before after v s l r1 r2 b Hitems Hb Ha Hv Hs Hl H1 H2 Hbl.
  destruct (epoch_wrapup_item_vqa (phase_of pl test) pl Hv Hs Hl H1 H2 Hbl)
    as (pl' & Hrun & Hlog & Gs & Gl & G1 & G2 & Gb & Gother & _).
  exists pl'. split.
  - unfold epoch_wrapup. rewrite Hitems, for_each_app, for_each_skip by assumption.
    cbn [for_each]. rewrite Hrun. now apply for_each_skip.
  - repeat split; assumption.
Qed.

Lemma epoch_wrapup_vqa_effect_witness :
  exists pl' : pl_module nat,
    epoch_wrapup scenario_ready true = (None, pl') /\
    logged pl'
    = [("vqa/test/score_epoch", F32.nan); ("vqa/test/score_best_epoch", F32.zero);
       ("vqa/test/close_score_best_epoch", F32.zero);
       ("vqa/test/open_score_best_epoch", F32.zero);
       ("vqa/test/loss_epoch", F32.nan); ("test/rouge1", F32.zero);
       ("test/rouge2", F32.zero); ("test/bleu_score", F32.zero)].
Proof.
  destruct (@epoch_wrapup_vqa_effect F32.f32_Num nat scenario_ready true
              [("mlm", 0%Z)] [("cls", 1%Z)] 1%Z VQARADScore.init
              (ScalarMetric Scalar.init) (ROUGE1ScoreMetric ROUGE1Score.init)
              (ROUGE2ScoreMetric ROUGE2Score.init) (BLEUScoreMetric BLEUScore.init)
              eq_refl eq_refl eq_refl eq_refl eq_refl eq_refl eq_refl eq_refl eq_refl)
    as (pl' & Hrun & Hlog & _).
  exists pl'. split; [exact Hrun|exact Hlog].
Defined.

(** X15. The six parameter groups of [set_schedule] are disjoint and hold,
    between them, exactly the parameters whose name does not contain both a
    head name and ["multi_modal"]: every such parameter is in one group, and
    a parameter of a head inside the multi-modal encoder is in none.  With no
    such name every parameter is in exactly one group. *)
Theorem optimizer_groups_partition :
  forall (N : Num) (P : Type) (pl : pl_module P),
    List.length (optimizer_grouped_parameters pl) = 6 /\
    Permutation
      (List.concat (map (@params N P) (optimizer_grouped_parameters pl)))
      (select_params (fun n => negb (head_and_multi_modal n)) (named_parameters pl)) /\
    (forallb (fun np => negb (head_and_multi_modal (fst np))) (named_parameters pl)
     = true ->
     Permutation
       (List.concat (map (@params N P) (optimizer_grouped_parameters pl)))
       (map snd (named_parameters pl))).
Proof.
  intros N P pl. split; [reflexivity|]. split; [apply groups_partition|].
  intros Hall. rewrite groups_partition. unfold select_params.
  apply Permutation_map.
  induction (named_parameters pl) as [|np named IH]; [constructor|].
  cbn [forallb] in Hall. apply andb_true_iff in Hall as [H1 H2].
  cbn [filter]. rewrite H1. constructor. now apply IH.
Qed.

Lemma optimizer_groups_partition_witness :
  Permutation
    (List.concat (map (@params F32.f32_Num nat)
                    (optimizer_grouped_parameters scenario_cls)))
    (map snd (named_parameters scenario_cls)).
Proof.
  apply (proj2 (proj2 (@optimizer_groups_partition F32.f32_Num nat scenario_cls))).
  reflexivity.
Defined.



Lemma f32_add_nan_r (a : F32.t) : F32.add a F32.nan = F32.nan.
Proof. now destruct a. Qed.

Lemma f32_fold_nan (xs : list F32.t) : fold_left F32.add xs F32.nan = F32.nan.
Proof. induction xs as [|x xs IH]; [reflexivity|exact IH]. Qed.

Lemma f32_eqb_zero (x : F32.t) :
  F32.eqb x F32.zero = true -> exists s : bool, x = S754_zero s.
Proof.
  destruct x as [s| | |s m e]; cbn; try discriminate.
  - intros _. now exists s.
  - destruct s; discriminate.
  - destruct s; discriminate.
Qed.

Lemma f32_fold_zeros (xs : list F32.t) (s : bool) :
  (forall x, In x xs -> F32.eqb x F32.zero = true) ->
  exists s' : bool, fold_left F32.add xs (S754_zero s) = S754_zero s'.
Proof.
  revert s. induction xs as [|x xs IH]; intros s Hall; [now exists s|].
  destruct (f32_eqb_zero x (Hall x (or_introl eq_refl))) as [sx ->].
  cbn [fold_left].
  assert (Hs : exists s', F32.add (S754_zero s) (S754_zero sx) = S754_zero s')
    by (destruct s, sx; eexists; reflexivity).
  destruct Hs as [s' ->]. apply IH. intros y Hy. apply Hall. now right.
Qed.

Lemma f32_add_opp (s : bool) (m : positive) (e : Z) :
  F32.add (S754_finite s m e) (SFopp (S754_finite s m e)) = F32.zero.
Proof.
  unfold F32.add, SFadd, SFopp. rewrite Z.min_id.
  replace (cond_Zopp s (Z.pos (fst (shl_align m e e)))
           + cond_Zopp (negb s) (Z.pos (fst (shl_align m e e))))%Z with 0%Z
    by (destruct s; cbn [cond_Zopp negb]; lia).
  reflexivity.
Qed.

(** X17. [check_non_acc_grad] in binary32.  Without a gradient it returns
    [True].  With one it compares the sum of the entries with zero: a NaN
    among the entries gives [False], entries that are all zero (of either
    sign) give [True], and so does a gradient of two opposite finite entries
    that are not zero: the check tells that the entries sum to zero, not that
    each of them is zero. *)
Theorem check_non_acc_grad_binary32 :
  forall (P : Type) (pl : pl_module (N := F32.f32_Num) P),
    (token_type_embeddings_grad pl = None -> check_non_acc_grad pl = true) /\
    (forall grad : list F32.t,
        token_type_embeddings_grad pl = Some grad ->
        (In F32.nan grad -> check_non_acc_grad pl = false) /\
        ((forall x, In x grad -> F32.eqb x F32.zero = true) ->
         check_non_acc_grad pl = true) /\
        (forall x : F32.t,
            F32.finite x = true -> F32.eqb x F32.zero = false ->
            grad = [x; SFopp x] -> check_non_acc_grad pl = true)).
Proof.
  intros P pl. unfold check_non_acc_grad. split; [now intros ->|].
  intros grad ->. unfold tsum.
  change (@neqb F32.f32_Num) with F32.eqb. change (@nadd F32.f32_Num) with F32.add.
  change (@num0 F32.f32_Num) with F32.zero. change (@num F32.f32_Num) with F32.t.
  split; [|split].
  - intros Hin. apply in_split in Hin as (l1 & l2 & ->).
    rewrite fold_left_app. cbn [fold_left].
    now rewrite f32_add_nan_r, f32_fold_nan.
  - intros Hall. destruct (f32_fold_zeros grad false Hall) as [s' Hs].
    change (F32.eqb (fold_left F32.add grad (S754_zero false)) F32.zero = true).
    rewrite Hs. reflexivity.
  - intros x Hfin Hnz ->. cbn [fold_left].
    destruct x as [s| | |s m e]; try discriminate.
    change (F32.add F32.zero (S754_finite s m e)) with (S754_finite s m e).
    now rewrite f32_add_opp.
Qed.

Lemma check_non_acc_grad_binary32_witness :
  F32.eqb (F32.frac 1 100) F32.zero = false /\
  check_non_acc_grad scenario_cancelling = true.
Proof.
  split; [reflexivity|].
  apply (proj2 (proj2 (proj2 (@check_non_acc_grad_binary32 nat scenario_cancelling)
                         [F32.frac 1 100; SFopp (F32.frac 1 100)] eq_refl))
           (F32.frac 1 100)); reflexivity.
Defined.

End M3aeUtilsFacts.
